(** * Entity aggregate of the game server: life state, authority peer,
      scene snapshot and persistence export

    A shallow embedding of [src/kcpServer/game/entity/index.ts] (class
    [Entity]).  Methods that mutate [this] are functions in a small
    state-and-trace monad over the entity record; calls into classes of
    the repository that are not among the sources (stores, manager,
    packets, event emitter) are either modelled from the specification
    (and say so) or recorded in the trace of calls. *)

From Stdlib Require Import ZArith QArith Qround Lia.
From Stdlib Require Import Floats.
From Stdlib Require Strings.String.
From stdpp Require Import base option list gmap.

Local Open Scope Z_scope.
Set Warnings "-inexact-float".

(** ** Enumerations

    The enum declarations ([@/types/enum/...]) are not among the sources.
    Each enum below has one constructor per member that the class names,
    plus one constructor standing for every other member (identified by its
    number), since the code compares against the named members only. *)

(** Modelled from the spec: [LifeStateEnum] (section 3, "lifeState: Alive,
    Dead"); the declaration is not among the sources.  The type is that of
    the field [lifeState], which the constructor of the class does not
    assign: [LIFE_UNDEFINED] is the value [undefined] of that field, the
    only one that is not a number. *)
Inductive LifeStateEnum : Type :=
| LIFE_ALIVE
| LIFE_DEAD
| LIFE_OTHER (n : Z)
| LIFE_UNDEFINED.

(** [typeof lifeState === 'number'] *)
Definition isNumber (l : LifeStateEnum) : bool :=
  match l with
  | LIFE_UNDEFINED => false
  | _ => true
  end.

(** Modelled from the spec: [ProtEntityTypeEnum] (section 3, "entityType:
    one of Avatar, Monster, NPC, Gadget"); the declaration is not among the
    sources, and the switch of [exportSceneEntityInfo] has no default. *)
Inductive ProtEntityTypeEnum : Type :=
| PROT_ENTITY_AVATAR
| PROT_ENTITY_MONSTER
| PROT_ENTITY_NPC
| PROT_ENTITY_GADGET
| PROT_ENTITY_OTHER (n : Z).

(** Modelled from the spec: [PlayerDieTypeEnum] (section 4.1, dieType
    "none"); the declaration is not among the sources. *)
Inductive PlayerDieTypeEnum : Type :=
| PLAYER_DIE_NONE
| PLAYER_DIE_OTHER (n : Z).

(** Modelled from the spec: [VisionTypeEnum] (section 4.5, the "died"
    visibility reason); the declaration is not among the sources. *)
Inductive VisionTypeEnum : Type :=
| VISION_DIE
| VISION_OTHER (n : Z).

(** Modelled from the spec: keys of the combat-stat store
    ([FightPropEnum]); the declaration is not among the sources. *)
Inductive FightPropEnum : Type :=
| FIGHT_PROP_MAX_HP
| FIGHT_PROP_CUR_HP
| FIGHT_PROP_OTHER (n : Z).

(** Modelled from the spec: keys of the scalar property store
    ([PlayerPropEnum]); the declaration is not among the sources. *)
Inductive PlayerPropEnum : Type :=
| PROP_LEVEL
| PROP_EXP
| PROP_BREAK_LEVEL
| PROP_OTHER (n : Z).

#[global] Instance LifeStateEnum_eq_dec : EqDecision LifeStateEnum.
Proof. solve_decision. Defined.
#[global] Instance ProtEntityTypeEnum_eq_dec : EqDecision ProtEntityTypeEnum.
Proof. solve_decision. Defined.
#[global] Instance PlayerDieTypeEnum_eq_dec : EqDecision PlayerDieTypeEnum.
Proof. solve_decision. Defined.
#[global] Instance VisionTypeEnum_eq_dec : EqDecision VisionTypeEnum.
Proof. solve_decision. Defined.
#[global] Instance FightPropEnum_eq_dec : EqDecision FightPropEnum.
Proof. solve_decision. Defined.
#[global] Instance PlayerPropEnum_eq_dec : EqDecision PlayerPropEnum.
Proof. solve_decision. Defined.

#[global] Instance FightPropEnum_countable : Countable FightPropEnum.
Proof.
  refine (inj_countable'
    (fun k => match k with
              | FIGHT_PROP_MAX_HP => inl false
              | FIGHT_PROP_CUR_HP => inl true
              | FIGHT_PROP_OTHER n => inr n
              end)
    (fun s => match s with
              | inl false => FIGHT_PROP_MAX_HP
              | inl true => FIGHT_PROP_CUR_HP
              | inr n => FIGHT_PROP_OTHER n
              end) _).
  by intros [].
Defined.

#[global] Instance PlayerPropEnum_countable : Countable PlayerPropEnum.
Proof.
  refine (inj_countable'
    (fun k => match k with
              | PROP_LEVEL => inl 0%nat
              | PROP_EXP => inl 1%nat
              | PROP_BREAK_LEVEL => inl 2%nat
              | PROP_OTHER n => inr n
              end)
    (fun s => match s with
              | inl 0%nat => PROP_LEVEL
              | inl 1%nat => PROP_EXP
              | inl _ => PROP_BREAK_LEVEL
              | inr n => PROP_OTHER n
              end) _).
  by intros [].
Defined.

(** ** Numbers

    Identifiers are integers ([Z]).  Combat-stat values and coordinates are
    JavaScript numbers, that is IEEE 754 binary64 values: they are the
    primitive floats of Rocq, with the same arithmetic, NaN, infinities and
    signed zeros. *)

(** [Math.max(a, b)]: NaN if either argument is NaN, else the larger
    one, [+0] counting as larger than [-0]. *)
Definition Math_max (a b : float) : float :=
  if is_nan a || is_nan b then nan
  else if (a <? b)%float then b
  else if (b <? a)%float then a
  else if is_zero a && get_sign a then b
  else a.

(** [Math.min(a, b)]: NaN if either argument is NaN, else the smaller
    one, [-0] counting as smaller than [+0]. *)
Definition Math_min (a b : float) : float :=
  if is_nan a || is_nan b then nan
  else if (a <? b)%float then a
  else if (b <? a)%float then b
  else if is_zero a && negb (get_sign a) then b
  else a.

(** [Array.prototype.includes] on a list of identifiers. *)
Definition includes (l : list Z) (x : Z) : bool :=
  existsb (Z.eqb x) l.

(** ** Collaborator classes *)

(** Modelled from the spec: [Vector] (section 3, "bornPos: spawn
    coordinate"); the class is not among the sources.  [export] yields the
    coordinate triple. *)
Record Vector : Type := mkVector { vx : float; vy : float; vz : float }.

Definition Vector_new : Vector := mkVector 0 0 0.
Definition Vector_export (v : Vector) : Vector := v.

(** Modelled from the spec: [FightProp] (section 2, "keyed combat-stat
    store"; section 6, get(key), set(key, value, notify?), init(data),
    exportPropList(), exportUserData()); the class is not among the
    sources.  A key that was never set reads as 0. *)
Record FightProp : Type := mkFightProp { fightPropMap : gmap FightPropEnum float }.

Definition FightProp_get (fp : FightProp) (k : FightPropEnum) : float :=
  default 0%float (fightPropMap fp !! k).
Definition FightProp_set (fp : FightProp) (k : FightPropEnum) (v : float) : FightProp :=
  mkFightProp (<[k := v]> (fightPropMap fp)).
Definition FightProp_init (data : gmap FightPropEnum float) : FightProp :=
  mkFightProp data.
Definition FightProp_exportUserData (fp : FightProp) : gmap FightPropEnum float :=
  fightPropMap fp.
Definition FightProp_exportPropList (fp : FightProp) : list (FightPropEnum * float) :=
  map_to_list (fightPropMap fp).

(** Modelled from the spec: [EntityProps] (section 2, "generic keyed scalar
    property store"; section 6, init(data), initNew(level), get, set,
    exportPropPair(key), exportUserData()); the class is not among the
    sources.  A fresh store holds the level only. *)
Record EntityProps : Type := mkEntityProps { propMap : gmap PlayerPropEnum Z }.

Definition EntityProps_get (p : EntityProps) (k : PlayerPropEnum) : Z :=
  default 0 (propMap p !! k).
Definition EntityProps_set (p : EntityProps) (k : PlayerPropEnum) (v : Z) : EntityProps :=
  mkEntityProps (<[k := v]> (propMap p)).
Definition EntityProps_init (data : gmap PlayerPropEnum Z) : EntityProps :=
  mkEntityProps data.
Definition EntityProps_initNew (level : Z) : EntityProps :=
  mkEntityProps {[ PROP_LEVEL := level ]}.
Definition EntityProps_exportUserData (p : EntityProps) : gmap PlayerPropEnum Z :=
  propMap p.
Definition EntityProps_exportPropPair (p : EntityProps) (k : PlayerPropEnum)
  : PlayerPropEnum * Z :=
  (k, EntityProps_get p k).

(** Modelled from the spec: [MotionInfo] (section 2, "position, velocity,
    time-of-last-move tracker"); the class is not among the sources.  The
    two last-move fields are null until the first authenticated move. *)
Record MotionInfo : Type := mkMotionInfo {
  pos : Vector;
  speed : Vector;
  sceneTime : option Z;
  reliableSeq : option Z
}.

Definition MotionInfo_export (m : MotionInfo) : Vector * Vector :=
  (Vector_export (pos m), Vector_export (speed m)).

(** The types below belong to classes and protocol declarations that the
    entity only stores or passes on; they are left abstract. *)
Class ExternalTypes : Type := {
  AbilityList : Type;
  EntityFightPropConfig : Type;
  CurveExcelConfig : Type;
  AnimatorPara : Type;
  BroadcastContext : Type;
  SceneAvatarInfo : Type;
  SceneMonsterInfo : Type;
  SceneNpcInfo : Type;
  SceneGadgetInfo : Type
}.

(** A connected player, with the three properties that
    [updateAuthorityPeer] reads; the class is not among the sources. *)
Record Player : Type := mkPlayer {
  peerId : Z;
  noAuthority : bool;
  loadedEntityIdList : list Z
}.

(** The world of a scene: [getPeer] resolves a (possibly null) peer
    identifier to a connected player; its body is not among the sources
    and is a field of the model. *)
Record World : Type := mkWorld {
  getPeer : option Z -> option Player
}.

Section Entity.
Context {ext : ExternalTypes}.

Record Scene : Type := mkScene {
  world : option World;
  playerList : option (list Player);
  broadcastContextList : list BroadcastContext
}.

Record EntityManager : Type := mkEntityManager {
  scene : Scene
}.

(** The fields of class [Entity], in the order of their declaration. *)
Record Entity : Type := mkEntity {
  manager : option EntityManager;
  entityType : ProtEntityTypeEnum;
  entityId : Z;
  name : option String.string;
  groupId : Z;
  configId : Z;
  blockId : Z;
  config : EntityFightPropConfig;
  growCurve : list CurveExcelConfig;
  abilityList : AbilityList;
  props : EntityProps;
  fightProps : FightProp;
  motionInfo : MotionInfo;
  authorityPeerId : option Z;
  bornPos : Vector;
  animatorParaList : list AnimatorPara;
  lifeState : LifeStateEnum;
  godMode : bool;
  dieType : PlayerDieTypeEnum;
  attackerId : option Z;
  isOnScene : bool;
  gridHash : Z
}.

(** Field assignments [this.f = v]. *)
Definition set_lifeState (v : LifeStateEnum) (e : Entity) : Entity :=
  mkEntity (manager e) (entityType e) (entityId e) (name e)
    (groupId e) (configId e)
    (blockId e) (config e) (growCurve e) (abilityList e) (props e)
    (fightProps e) (motionInfo e) (authorityPeerId e) (bornPos e)
    (animatorParaList e) v (godMode e) (dieType e) (attackerId e)
    (isOnScene e) (gridHash e).

Definition set_dieType (v : PlayerDieTypeEnum) (e : Entity) : Entity :=
  mkEntity (manager e) (entityType e) (entityId e) (name e)
    (groupId e) (configId e)
    (blockId e) (config e) (growCurve e) (abilityList e) (props e)
    (fightProps e) (motionInfo e) (authorityPeerId e) (bornPos e)
    (animatorParaList e) (lifeState e) (godMode e) v (attackerId e)
    (isOnScene e) (gridHash e).

Definition set_attackerId (v : option Z) (e : Entity) : Entity :=
  mkEntity (manager e) (entityType e) (entityId e) (name e)
    (groupId e) (configId e)
    (blockId e) (config e) (growCurve e) (abilityList e) (props e)
    (fightProps e) (motionInfo e) (authorityPeerId e) (bornPos e)
    (animatorParaList e) (lifeState e) (godMode e) (dieType e) v
    (isOnScene e) (gridHash e).

Definition set_authorityPeerId (v : option Z) (e : Entity) : Entity :=
  mkEntity (manager e) (entityType e) (entityId e) (name e)
    (groupId e) (configId e)
    (blockId e) (config e) (growCurve e) (abilityList e) (props e)
    (fightProps e) (motionInfo e) v (bornPos e)
    (animatorParaList e) (lifeState e) (godMode e) (dieType e) (attackerId e)
    (isOnScene e) (gridHash e).

Definition set_props (v : EntityProps) (e : Entity) : Entity :=
  mkEntity (manager e) (entityType e) (entityId e) (name e)
    (groupId e) (configId e)
    (blockId e) (config e) (growCurve e) (abilityList e) v
    (fightProps e) (motionInfo e) (authorityPeerId e) (bornPos e)
    (animatorParaList e) (lifeState e) (godMode e) (dieType e) (attackerId e)
    (isOnScene e) (gridHash e).

Definition set_fightProps (v : FightProp) (e : Entity) : Entity :=
  mkEntity (manager e) (entityType e) (entityId e) (name e)
    (groupId e) (configId e)
    (blockId e) (config e) (growCurve e) (abilityList e) (props e)
    v (motionInfo e) (authorityPeerId e) (bornPos e)
    (animatorParaList e) (lifeState e) (godMode e) (dieType e) (attackerId e)
    (isOnScene e) (gridHash e).

Definition set_abilityList (v : AbilityList) (e : Entity) : Entity :=
  mkEntity (manager e) (entityType e) (entityId e) (name e)
    (groupId e) (configId e)
    (blockId e) (config e) (growCurve e) v (props e)
    (fightProps e) (motionInfo e) (authorityPeerId e) (bornPos e)
    (animatorParaList e) (lifeState e) (godMode e) (dieType e) (attackerId e)
    (isOnScene e) (gridHash e).

Definition set_godMode (v : bool) (e : Entity) : Entity :=
  mkEntity (manager e) (entityType e) (entityId e) (name e)
    (groupId e) (configId e)
    (blockId e) (config e) (growCurve e) (abilityList e) (props e)
    (fightProps e) (motionInfo e) (authorityPeerId e) (bornPos e)
    (animatorParaList e) (lifeState e) v (dieType e) (attackerId e)
    (isOnScene e) (gridHash e).

(** ** Calls that leave the class

    Every call of an asynchronous method of another class, and every
    [emit], is recorded in order; an [await] is the sequencing of the
    monad below.  A call that receives [this] records the entity as it is
    at the time of the call. *)
Inductive EventName : Type := Death | Revive.

Inductive Call : Type :=
| CallFightPropSet (k : FightPropEnum) (v : float) (notify : bool)
| CallAbilityListUpdate
| CallFightPropUpdate
| CallLifeStateChangeBroadcast (ctxs : list BroadcastContext) (e : Entity)
| CallManagerRemove (e : Entity) (reason : VisionTypeEnum)
| CallEmit (name : EventName) (e : Entity).

(** The monad of methods: read and write [this], log the calls. *)
Definition M (A : Type) : Type := Entity -> A * Entity * list Call.

#[global] Instance M_ret : MRet M := fun A a e => (a, e, []).
#[global] Instance M_bind : MBind M := fun A B f m e =>
  let '(a, e1, t1) := m e in
  let '(b, e2, t2) := f a e1 in
  (b, e2, t1 ++ t2).

Definition this : M Entity := fun e => (e, e, []).
Definition assign (f : Entity -> Entity) : M unit := fun e => (tt, f e, []).
Definition call (c : Call) : M unit := fun e => (tt, e, [c]).

Definition result {A} (x : A * Entity * list Call) : A := fst (fst x).
Definition after {A} (x : A * Entity * list Call) : Entity := snd (fst x).
Definition calls {A} (x : A * Entity * list Call) : list Call := snd x.

(** ** Methods of other classes that the entity calls

    [abilityList.update()] and [fightProps.update()] run the ability and
    stat-curve engines, which are not among the sources; each is a
    parameter that reads the entity and yields its own refreshed store. *)
Class Engines : Type := {
  AbilityList_update : Entity -> AbilityList;
  FightProp_update : Entity -> FightProp
}.

(** The four variant builders are methods that subclasses override; the
    result may be null. *)
Class VariantBuilders : Type := {
  exportSceneAvatarInfo : Entity -> option SceneAvatarInfo;
  exportSceneMonsterInfo : Entity -> option SceneMonsterInfo;
  exportSceneNpcInfo : Entity -> option SceneNpcInfo;
  exportSceneGadgetInfo : Entity -> option SceneGadgetInfo
}.

(** The builders of class [Entity] itself: placeholders returning null. *)
Definition Entity_placeholders : VariantBuilders := {|
  exportSceneAvatarInfo := fun _ => None;
  exportSceneMonsterInfo := fun _ => None;
  exportSceneNpcInfo := fun _ => None;
  exportSceneGadgetInfo := fun _ => None
|}.

Context {eng : Engines} {var : VariantBuilders}.

(** [await abilityList.update()] *)
Definition abilityList_update : M unit :=
  call CallAbilityListUpdate;;
  assign (fun e => set_abilityList (AbilityList_update e) e).

(** [await fightProps.update()] *)
Definition fightProps_update : M unit :=
  call CallFightPropUpdate;;
  assign (fun e => set_fightProps (FightProp_update e) e).

(** Modelled from the spec: [await fightProps.set(k, v, notify)] (section
    6, "set(key, value, notify?)" of the keyed combat-stat store), whose
    body is not among the sources: [v] is stored under [k]; the call and
    its notify flag are logged. *)
Definition fightProps_set (k : FightPropEnum) (v : float) (notify : bool) : M unit :=
  call (CallFightPropSet k v notify);;
  assign (fun e => set_fightProps (FightProp_set (fightProps e) k v) e).

(** ** Persisted shape *)
Record EntityUserData : Type := mkEntityUserData {
  ud_lifeState : LifeStateEnum;
  propsData : gmap PlayerPropEnum Z;
  fightPropsData : gmap FightPropEnum float
}.

(** ** Methods of class [Entity] *)

(** [init(userData)] *)
Definition init (userData : EntityUserData) : M unit :=
  assign (set_lifeState
            (if isNumber (ud_lifeState userData) then ud_lifeState userData
             else LIFE_ALIVE));;
  assign (set_props (EntityProps_init (propsData userData)));;
  assign (set_fightProps (FightProp_init (fightPropsData userData)));;
  abilityList_update;;
  fightProps_update.

(** [initNew(level = 1)] *)
Definition initNew (level : option Z) : M unit :=
  assign (set_lifeState LIFE_ALIVE);;
  assign (set_props (EntityProps_initNew (default 1 level)));;
  abilityList_update;;
  fightProps_update.

Definition isAlive (e : Entity) : bool :=
  bool_decide (lifeState e = LIFE_ALIVE).

Definition isDead (e : Entity) : bool :=
  bool_decide (lifeState e = LIFE_DEAD).

Definition level (e : Entity) : Z := EntityProps_get (props e) PROP_LEVEL.
Definition exp (e : Entity) : Z := EntityProps_get (props e) PROP_EXP.
Definition promoteLevel (e : Entity) : Z :=
  EntityProps_get (props e) PROP_BREAK_LEVEL.

Definition set_level (v : Z) : M unit :=
  assign (fun e => set_props (EntityProps_set (props e) PROP_LEVEL v) e).
Definition set_exp (v : Z) : M unit :=
  assign (fun e => set_props (EntityProps_set (props e) PROP_EXP v) e).
Definition set_promoteLevel (v : Z) : M unit :=
  assign (fun e => set_props (EntityProps_set (props e) PROP_BREAK_LEVEL v) e).

(** The guard [world?.getPeer(authorityPeerId)?.loadedEntityIdList
    ?.includes(entityId)]; undefined counts as false. *)
Definition currentPeerHasLoaded (w : option World) (e : Entity) : bool :=
  match w with
  | None => false
  | Some w' =>
      match getPeer w' (authorityPeerId e) with
      | None => false
      | Some peer => includes (loadedEntityIdList peer) (entityId e)
      end
  end.

(** The predicate passed to [playerList.find]. *)
Definition eligible (eid : Z) (player : Player) : bool :=
  negb (noAuthority player) && includes (loadedEntityIdList player) eid.

(** [manager?.scene || {}], destructured into [world] and [playerList]. *)
Definition sceneOf (e : Entity) : option World * option (list Player) :=
  match manager e with
  | Some m => (world (scene m), playerList (scene m))
  | None => (None, None)
  end.

Definition updateAuthorityPeer : M bool :=
  e ← this;
  let '(w, pl) := sceneOf e in
  if negb (bool_decide (entityType e = PROT_ENTITY_MONSTER))
     || currentPeerHasLoaded w e
  then mret false
  else
    match pl ≫= List.find (eligible (entityId e)) with
    | None => mret false
    | Some player =>
        assign (set_authorityPeerId (Some (peerId player)));;
        mret (bool_decide (authorityPeerId e ≠ None))
    end.

(** [handleDeath]: the Death handler. *)
Definition handleDeath : M unit :=
  e ← this;
  match manager e with
  | None => mret tt
  | Some m =>
      call (CallLifeStateChangeBroadcast (broadcastContextList (scene m)) e);;
      call (CallManagerRemove e VISION_DIE)
  end.

(** Modelled from the spec: [emit] of the base class, which is not among
    the sources (section 4.1: "raises a Death lifecycle event and suspends
    until its handling completes"; section 4.5: the handler on Death).
    The event is logged, then the handler of the class for it runs. *)
Definition emit (name : EventName) : M unit :=
  e ← this;
  call (CallEmit name e);;
  match name with
  | Death => handleDeath
  | Revive => mret tt
  end.

Definition kill (attacker : Z) (die : PlayerDieTypeEnum) : M unit :=
  e ← this;
  if negb (isAlive e) then mret tt
  else
    assign (set_lifeState LIFE_DEAD);;
    assign (set_dieType die);;
    assign (set_attackerId (Some attacker));;
    emit Death.

Definition revive (val : option float) : M unit :=
  e ← this;
  if isAlive e then mret tt
  else
    assign (set_lifeState LIFE_ALIVE);;
    assign (set_dieType PLAYER_DIE_NONE);;
    assign (set_attackerId None);;
    e' ← this;
    let maxHp := FightProp_get (fightProps e') FIGHT_PROP_MAX_HP in
    fightProps_set FIGHT_PROP_CUR_HP
      (match val with
       | Some v => Math_min maxHp (Math_max 1 v)
       | None => maxHp * 0.4
       end)%float true;;
    emit Revive.

(** *** States reached by the life-state methods *)

(** The entity as [kill] leaves it before the Death event. *)
Definition killed (attacker : Z) (die : PlayerDieTypeEnum) (e : Entity) : Entity :=
  set_attackerId (Some attacker) (set_dieType die (set_lifeState LIFE_DEAD e)).

(** The value that [revive] passes to [fightProps.set]. *)
Definition reviveHp (val : option float) (maxHp : float) : float :=
  match val with
  | Some v => Math_min maxHp (Math_max 1 v)
  | None => maxHp * 0.4
  end%float.

(** The entity as [revive] leaves it before the Revive event. *)
Definition revived (val : option float) (e : Entity) : Entity :=
  let e' := set_attackerId None
              (set_dieType PLAYER_DIE_NONE (set_lifeState LIFE_ALIVE e)) in
  set_fightProps
    (FightProp_set (fightProps e') FIGHT_PROP_CUR_HP
       (reviveHp val (FightProp_get (fightProps e') FIGHT_PROP_MAX_HP)))
    e'.

(** ** Snapshot export *)

Record AiInfo : Type := mkAiInfo {
  isAiOpen : bool;
  ai_bornPos : Vector
}.

(** [EntityAuthorityInfo]; [abilityInfo] is optional because the NPC branch
    deletes it.  The empty objects are [tt]. *)
Record EntityAuthorityInfo : Type := mkEntityAuthorityInfo {
  abilityInfo : option unit;
  rendererChangedInfo : unit;
  aiInfo : AiInfo;
  eai_bornPos : Vector;
  unknown1 : unit
}.

Definition exportEntityAuthorityInfo (e : Entity) : EntityAuthorityInfo := {|
  abilityInfo := Some tt;
  rendererChangedInfo := tt;
  aiInfo := {| isAiOpen := true; ai_bornPos := Vector_export (bornPos e) |};
  eai_bornPos := Vector_export (bornPos e);
  unknown1 := tt
|}.

(** [SceneEntityInfo].  An optional field is [None] when the object has no
    such key; a variant field that is present holds the (possibly null)
    result of its builder. *)
Record SceneEntityInfo : Type := mkSceneEntityInfo {
  sei_entityType : ProtEntityTypeEnum;
  sei_entityId : Z;
  sei_motionInfo : Vector * Vector;
  propList : list (PlayerPropEnum * Z);
  fightPropList : list (FightPropEnum * float);
  sei_lifeState : option LifeStateEnum;
  sei_animatorParaList : list unit;
  entityClientData : unit;
  entityAuthorityInfo : EntityAuthorityInfo;
  lastMoveSceneTimeMs : option Z;
  lastMoveReliableSeq : option Z;
  avatar : option (option SceneAvatarInfo);
  monster : option (option SceneMonsterInfo);
  npc : option (option SceneNpcInfo);
  gadget : option (option SceneGadgetInfo)
}.

(** Assignments to, and deletions from, the snapshot under construction. *)
Definition set_lastMoveSceneTimeMs (v : Z) (s : SceneEntityInfo) : SceneEntityInfo :=
  mkSceneEntityInfo (sei_entityType s) (sei_entityId s) (sei_motionInfo s)
    (propList s) (fightPropList s) (sei_lifeState s) (sei_animatorParaList s)
    (entityClientData s) (entityAuthorityInfo s) (Some v)
    (lastMoveReliableSeq s) (avatar s) (monster s) (npc s) (gadget s).

Definition set_lastMoveReliableSeq (v : Z) (s : SceneEntityInfo) : SceneEntityInfo :=
  mkSceneEntityInfo (sei_entityType s) (sei_entityId s) (sei_motionInfo s)
    (propList s) (fightPropList s) (sei_lifeState s) (sei_animatorParaList s)
    (entityClientData s) (entityAuthorityInfo s) (lastMoveSceneTimeMs s)
    (Some v) (avatar s) (monster s) (npc s) (gadget s).

Definition set_avatar (v : option SceneAvatarInfo) (s : SceneEntityInfo) : SceneEntityInfo :=
  mkSceneEntityInfo (sei_entityType s) (sei_entityId s) (sei_motionInfo s)
    (propList s) (fightPropList s) (sei_lifeState s) (sei_animatorParaList s)
    (entityClientData s) (entityAuthorityInfo s) (lastMoveSceneTimeMs s)
    (lastMoveReliableSeq s) (Some v) (monster s) (npc s) (gadget s).

Definition set_monster (v : option SceneMonsterInfo) (s : SceneEntityInfo) : SceneEntityInfo :=
  mkSceneEntityInfo (sei_entityType s) (sei_entityId s) (sei_motionInfo s)
    (propList s) (fightPropList s) (sei_lifeState s) (sei_animatorParaList s)
    (entityClientData s) (entityAuthorityInfo s) (lastMoveSceneTimeMs s)
    (lastMoveReliableSeq s) (avatar s) (Some v) (npc s) (gadget s).

Definition set_npc (v : option SceneNpcInfo) (s : SceneEntityInfo) : SceneEntityInfo :=
  mkSceneEntityInfo (sei_entityType s) (sei_entityId s) (sei_motionInfo s)
    (propList s) (fightPropList s) (sei_lifeState s) (sei_animatorParaList s)
    (entityClientData s) (entityAuthorityInfo s) (lastMoveSceneTimeMs s)
    (lastMoveReliableSeq s) (avatar s) (monster s) (Some v) (gadget s).

Definition set_gadget (v : option SceneGadgetInfo) (s : SceneEntityInfo) : SceneEntityInfo :=
  mkSceneEntityInfo (sei_entityType s) (sei_entityId s) (sei_motionInfo s)
    (propList s) (fightPropList s) (sei_lifeState s) (sei_animatorParaList s)
    (entityClientData s) (entityAuthorityInfo s) (lastMoveSceneTimeMs s)
    (lastMoveReliableSeq s) (avatar s) (monster s) (npc s) (Some v).

Definition set_propList (v : list (PlayerPropEnum * Z)) (s : SceneEntityInfo) : SceneEntityInfo :=
  mkSceneEntityInfo (sei_entityType s) (sei_entityId s) (sei_motionInfo s)
    v (fightPropList s) (sei_lifeState s) (sei_animatorParaList s)
    (entityClientData s) (entityAuthorityInfo s) (lastMoveSceneTimeMs s)
    (lastMoveReliableSeq s) (avatar s) (monster s) (npc s) (gadget s).

Definition delete_lifeState (s : SceneEntityInfo) : SceneEntityInfo :=
  mkSceneEntityInfo (sei_entityType s) (sei_entityId s) (sei_motionInfo s)
    (propList s) (fightPropList s) None (sei_animatorParaList s)
    (entityClientData s) (entityAuthorityInfo s) (lastMoveSceneTimeMs s)
    (lastMoveReliableSeq s) (avatar s) (monster s) (npc s) (gadget s).

Definition delete_abilityInfo (s : SceneEntityInfo) : SceneEntityInfo :=
  let a := entityAuthorityInfo s in
  mkSceneEntityInfo (sei_entityType s) (sei_entityId s) (sei_motionInfo s)
    (propList s) (fightPropList s) (sei_lifeState s) (sei_animatorParaList s)
    (entityClientData s)
    (mkEntityAuthorityInfo None (rendererChangedInfo a) (aiInfo a)
       (eai_bornPos a) (unknown1 a))
    (lastMoveSceneTimeMs s)
    (lastMoveReliableSeq s) (avatar s) (monster s) (npc s) (gadget s).

Definition exportSceneEntityInfo (e : Entity) : SceneEntityInfo :=
  let s0 := {|
    sei_entityType := entityType e;
    sei_entityId := entityId e;
    sei_motionInfo := MotionInfo_export (motionInfo e);
    propList := [EntityProps_exportPropPair (props e) PROP_LEVEL];
    fightPropList := FightProp_exportPropList (fightProps e);
    sei_lifeState := Some (lifeState e);
    sei_animatorParaList := [tt];
    entityClientData := tt;
    entityAuthorityInfo := exportEntityAuthorityInfo e;
    lastMoveSceneTimeMs := None;
    lastMoveReliableSeq := None;
    avatar := None;
    monster := None;
    npc := None;
    gadget := None
  |} in
  let s1 :=
    match sceneTime (motionInfo e) with
    | Some t => set_lastMoveSceneTimeMs t s0
    | None => s0
    end in
  let s2 :=
    match reliableSeq (motionInfo e) with
    | Some q => set_lastMoveReliableSeq q s1
    | None => s1
    end in
  match entityType e with
  | PROT_ENTITY_AVATAR => set_avatar (exportSceneAvatarInfo e) s2
  | PROT_ENTITY_MONSTER => set_monster (exportSceneMonsterInfo e) s2
  | PROT_ENTITY_NPC =>
      delete_abilityInfo
        (delete_lifeState
           (set_propList [] (set_npc (exportSceneNpcInfo e) s2)))
  | PROT_ENTITY_GADGET => set_gadget (exportSceneGadgetInfo e) s2
  | PROT_ENTITY_OTHER _ => s2
  end.

Definition exportUserData (e : Entity) : EntityUserData := {|
  ud_lifeState := lifeState e;
  propsData := EntityProps_exportUserData (props e);
  fightPropsData := FightProp_exportUserData (fightProps e)
|}.

End Entity.

(** ** The specification's own arithmetic

    The specification states the default HP of [revive] as a rounded
    product of real numbers; the two definitions below give the real
    number that a double stands for and the rounding, to be compared with
    what [revive] stores. *)

(** [clamp(v, lo, hi)]: [v] confined to the interval from [lo] to [hi]. *)
Definition spec_clamp (v lo hi : float) : float :=
  if (v <? lo)%float then lo else if (hi <? v)%float then hi else v.

(** The rational number that a finite double stands for. *)
Definition valueOf (x : float) : option Q :=
  match Prim2SF x with
  | S754_zero _ => Some 0%Q
  | S754_finite s m e =>
      Some ((if s then - inject_Z (Zpos m) else inject_Z (Zpos m))
            * Qpower 2 e)%Q
  | _ => None
  end.

(** [round(x)]: the nearest integer, halves upwards. *)
Definition spec_round (x : Q) : Z := Qfloor (x + (1 # 2))%Q.

(** ** Concrete scenes and entities *)
Module Examples.

#[export] Instance ext0 : ExternalTypes := {|
  AbilityList := list Z;
  EntityFightPropConfig := unit;
  CurveExcelConfig := Z;
  AnimatorPara := unit;
  BroadcastContext := Z;
  SceneAvatarInfo := Z;
  SceneMonsterInfo := Z;
  SceneNpcInfo := Z;
  SceneGadgetInfo := Z
|}.

(** An engine whose refresh derives the maximum HP from the level (300 at
    level 3, 2000 at level 20, 100 otherwise) and keeps the other stats. *)
#[export] Instance eng0 : Engines := {|
  AbilityList_update := fun e => abilityList e;
  FightProp_update := fun e =>
    FightProp_set (fightProps e) FIGHT_PROP_MAX_HP
      (if (level e =? 3)%Z then 300%float
       else if (level e =? 20)%Z then 2000%float else 100%float)
|}.

(** Builders of a subclass that fills in every variant. *)
#[export] Instance var0 : VariantBuilders := {|
  exportSceneAvatarInfo := fun e => Some (entityId e);
  exportSceneMonsterInfo := fun e => Some (entityId e);
  exportSceneNpcInfo := fun e => Some (entityId e);
  exportSceneGadgetInfo := fun e => Some (entityId e)
|}.

Definition player5 : Player := mkPlayer 5 false [100; 101].
Definition player6 : Player := mkPlayer 6 true [100].
Definition player8 : Player := mkPlayer 8 false [101].

(** A world that resolves a peer identifier among the given players. *)
Definition worldOf (players : list Player) : World :=
  mkWorld (fun id =>
    match id with
    | Some i => List.find (fun p => Z.eqb (peerId p) i) players
    | None => None
    end).

Definition sceneWith (players : list Player) : Scene :=
  mkScene (Some (worldOf players)) (Some players) [1; 2].

Definition entityIn (m : option EntityManager) (t : ProtEntityTypeEnum)
    (auth : option Z) (ls : LifeStateEnum) (maxHp : float) : Entity :=
  mkEntity m t 100 None 0 0 0 tt [] [] (mkEntityProps {[ PROP_LEVEL := 3 ]})
    (mkFightProp {[ FIGHT_PROP_MAX_HP := maxHp ]})
    (mkMotionInfo Vector_new Vector_new (Some 1500) None)
    auth Vector_new [] ls false PLAYER_DIE_NONE None true 0.

Definition manager3 : option EntityManager :=
  Some (mkEntityManager (sceneWith [player6; player8; player5])).

(** A monster without authority, loaded by exactly one eligible player. *)
Definition monsterFresh : Entity :=
  entityIn manager3 PROT_ENTITY_MONSTER None LIFE_ALIVE 300.

(** A monster whose authority peer 7 has left, in a scene without any
    eligible player. *)
Definition monsterStale : Entity :=
  entityIn (Some (mkEntityManager (sceneWith [player6; player8])))
    PROT_ENTITY_MONSTER (Some 7) LIFE_ALIVE 300.

(** A monster whose authority peer 5 still has it loaded. *)
Definition monsterKept : Entity :=
  entityIn manager3 PROT_ENTITY_MONSTER (Some 5) LIFE_ALIVE 300.

(** A dead monster with a maximum HP of 1. *)
Definition monsterDead : Entity :=
  set_attackerId (Some 42)
    (set_dieType (PLAYER_DIE_OTHER 1)
       (entityIn manager3 PROT_ENTITY_MONSTER None LIFE_DEAD 1)).

Definition npcEntity : Entity :=
  entityIn manager3 PROT_ENTITY_NPC None LIFE_ALIVE 300.

Definition avatarDetached : Entity :=
  entityIn None PROT_ENTITY_AVATAR None LIFE_ALIVE 300.

End Examples.

(** More scenes, for the properties of the entity beyond the ones above. *)
Module Scenarios.
Import Examples.

Definition player9 : Player := mkPlayer 9 false [100].

(** Peer 6 is flagged [noAuthority] but is the current authority of the
    monster and still has it loaded. *)
Definition monsterOfIneligible : Entity :=
  entityIn manager3 PROT_ENTITY_MONSTER (Some 6) LIFE_ALIVE 300.

(** Two eligible players, 5 before 9, both having entity 100 loaded; the
    authority peer 7 is gone. *)
Definition monsterContested : Entity :=
  entityIn (Some (mkEntityManager (sceneWith [player6; player5; player9])))
    PROT_ENTITY_MONSTER (Some 7) LIFE_ALIVE 300.

(** A monster outside any scene. *)
Definition monsterDetached : Entity :=
  entityIn None PROT_ENTITY_MONSTER (Some 5) LIFE_ALIVE 300.

(** An entity in a life state that is neither Alive nor Dead. *)
Definition monsterLimbo : Entity :=
  entityIn manager3 PROT_ENTITY_MONSTER None (LIFE_OTHER 3) 0.5.


(** An entity whose type is none of the four of the switch. *)
Definition otherEntity : Entity :=
  entityIn manager3 (PROT_ENTITY_OTHER 9) None LIFE_ALIVE 300.

End Scenarios.

(** * The server front ([Server], in a source file whose name is not
      recorded)

    [setHosts] and [removeHosts] edit the hosts file through the external
    package [hostile], whose calls may throw; [start] counts the
    [listening] events of the three servers.  The calls that leave the
    class are logged in order. *)
Module Server.
Import Stdlib.Strings.String.

Inductive HostOp : Type := HostSet | HostRemove.

Inductive Call : Type :=
| LogDebug (msg : string)
| LogInfo (msg : string)
| LogError (msg : string)
| Hostile (op : HostOp) (ip host : string)
| Restart (delayMs : Z)
| FlushDNS
| Measure (name startMark : string).

(** The environment: whether the [k]-th call of [hostile] (counted from 0
    within one run of the method) throws. *)
Definition Throws : Type := nat -> bool.

Definition failedMessage (op : HostOp) : string :=
  match op with
  | HostSet => "Set hosts failed:"
  | HostRemove => "Remove hosts failed:"
  end%string.

(** The inner loop [for (let i = 1; i <= 10; i++)] for one host, entered
    at [i] with [left] iterations to go before [i] exceeds 10, the next
    call of [hostile] being the [k]-th.  The result holds the calls made,
    the number of the next call, and whether the method has returned from
    inside the loop. *)
Fixpoint attempts (op : HostOp) (throws : Throws) (host : string)
    (left i k : nat) : list Call * nat * bool :=
  match left with
  | O => ([], k, false)
  | S left' =>
      if throws k then
        if (10 <=? i)%nat then
          ([Hostile op "127.0.0.1" host; LogError (failedMessage op);
            Restart 15000], S k, true)
        else
          let '(t, k', returned) := attempts op throws host left' (S i) (S k) in
          (Hostile op "127.0.0.1" host :: t, k', returned)
      else ([Hostile op "127.0.0.1" host], S k, false)
  end.

(** The outer loop [for (let host of config.hosts)]. *)
Fixpoint hostsLoop (op : HostOp) (throws : Throws) (hosts : list string)
    (k : nat) : list Call * bool :=
  match hosts with
  | [] => ([], false)
  | host :: rest =>
      let '(t, k', returned) := attempts op throws host 10 1 k in
      if returned then (t, true)
      else let '(t', r) := hostsLoop op throws rest k' in (t ++ t', r)
  end.

(** The end of both methods: flush the DNS cache, restart on failure. *)
Definition flushStep (flushThrows : bool) : list Call :=
  [LogDebug "Flushing dns..."; FlushDNS]
  ++ (if flushThrows then [LogError "Flush dns failed:"; Restart 15000]
      else [LogDebug "Flush dns success."]).

(** [setHosts]; [hosts] is [config.hosts], [None] when it is not set. *)
Definition setHosts (hosts : option (list string)) (throws : Throws)
    (flushThrows : bool) : list Call :=
  match hosts with
  | None => []
  | Some hs =>
      let '(t, returned) := hostsLoop HostSet throws hs 0 in
      LogDebug "Setting hosts..." :: t
      ++ (if returned then []
          else LogDebug "Set hosts success." :: flushStep flushThrows)
  end.

(** [removeHosts] *)
Definition removeHosts (hosts : option (list string)) (throws : Throws)
    (flushThrows : bool) : list Call :=
  match hosts with
  | None => []
  | Some hs =>
      let '(t, returned) := hostsLoop HostRemove throws hs 0 in
      LogDebug "Removing hosts..." :: t
      ++ (if returned then []
          else LogDebug "Remove hosts success." :: flushStep flushThrows)
  end.

(** The closure [onListening] of [start] on the counter [listening]. *)
Definition onListening (listening : nat) : nat * list Call :=
  let listening' := S listening in
  if (listening' <? 3)%nat then (listening', [])
  else (listening', [LogInfo "Started."; Measure "Server start" "Start"]).

(** [n] events [listening] in a row. *)
Fixpoint listeningEvents (n : nat) (listening : nat) : nat * list Call :=
  match n with
  | O => (listening, [])
  | S n' =>
      let '(l1, t1) := onListening listening in
      let '(l2, t2) := listeningEvents n' l1 in
      (l2, t1 ++ t2)
  end.

Definition isHostile (c : Call) : bool :=
  match c with Hostile _ _ _ => true | _ => false end.
Definition isRestart (c : Call) : bool :=
  match c with Restart _ => true | _ => false end.
Definition isFlushDNS (c : Call) : bool :=
  match c with FlushDNS => true | _ => false end.
Definition isStarted (c : Call) : bool :=
  match c with LogInfo msg => String.eqb msg "Started." | _ => false end.

Definition count (f : Call -> bool) (t : list Call) : nat :=
  List.length (List.filter f t).

(** Two environments: the first three calls of [hostile] throw; every call
    from the second on throws. *)
Definition throwsThrice : Throws := fun k => (k <? 3)%nat.
Definition throwsAfterFirst : Throws := fun k => (1 <=? k)%nat.

End Server.

(** * Properties *)

(** ** Lists of players *)

Lemma find_first_of_filter {A} (f : A -> bool) (l rest : list A) (x : A) :
  List.filter f l = x :: rest -> List.find f l = Some x.
Proof.
  induction l as [|y l IH]; simpl; [discriminate|].
  destruct (f y); [congruence | exact IH].
Qed.

Lemma find_none_of_all_false {A} (f : A -> bool) (l : list A) :
  (forall x, In x l -> f x = false) -> List.find f l = None.
Proof.
  induction l as [|y l IH]; simpl; intros H; [reflexivity|].
  rewrite (H y (or_introl eq_refl)). apply IH. intros x Hx. apply H. by right.
Qed.

(** ** Authority assignment *)
Section Authority.
Context {ext : ExternalTypes}.

(** The three ways out of [updateAuthorityPeer]. *)
Lemma updateAuthorityPeer_guard (e : Entity) :
  negb (bool_decide (entityType e = PROT_ENTITY_MONSTER))
    || currentPeerHasLoaded (sceneOf e).1 e = true ->
  updateAuthorityPeer e = (false, e, []).
Proof.
  intros H. unfold updateAuthorityPeer, mbind, M_bind, this. simpl.
  destruct (sceneOf e) as [w pl]. simpl in *. by rewrite H.
Qed.

Lemma updateAuthorityPeer_not_found (e : Entity) :
  negb (bool_decide (entityType e = PROT_ENTITY_MONSTER))
    || currentPeerHasLoaded (sceneOf e).1 e = false ->
  (sceneOf e).2 ≫= List.find (eligible (entityId e)) = None ->
  updateAuthorityPeer e = (false, e, []).
Proof.
  intros H Hf. unfold updateAuthorityPeer, mbind at 1, M_bind, this. simpl.
  destruct (sceneOf e) as [w pl]. simpl in *. by rewrite H, Hf.
Qed.

Lemma updateAuthorityPeer_found (e : Entity) (player : Player) :
  negb (bool_decide (entityType e = PROT_ENTITY_MONSTER))
    || currentPeerHasLoaded (sceneOf e).1 e = false ->
  (sceneOf e).2 ≫= List.find (eligible (entityId e)) = Some player ->
  updateAuthorityPeer e
  = (bool_decide (authorityPeerId e ≠ None),
     set_authorityPeerId (Some (peerId player)) e, []).
Proof.
  intros H Hf. unfold updateAuthorityPeer, mbind at 1, M_bind, this. simpl.
  destruct (sceneOf e) as [w pl]. simpl in *. by rewrite H, Hf.
Qed.

(** C9.  On an entity whose type is not Monster, [updateAuthorityPeer]
    returns false and leaves the entity, hence [authorityPeerId], as it
    was, whatever the manager, the scene and its player list are; it makes
    no call. *)
Theorem updateAuthorityPeer_non_monster (e : Entity) :
  entityType e ≠ PROT_ENTITY_MONSTER ->
  result (updateAuthorityPeer e) = false
  /\ authorityPeerId (after (updateAuthorityPeer e)) = authorityPeerId e
  /\ after (updateAuthorityPeer e) = e
  /\ calls (updateAuthorityPeer e) = [].
Proof.
  intros Ht. rewrite updateAuthorityPeer_guard; [done|].
  by rewrite bool_decide_eq_false_2.
Qed.

(** C2 (amended).  On a Monster whose current authority peer does not have
    the entity loaded any more (or is gone), in a scene where no player of
    the list is eligible and has the entity loaded, [updateAuthorityPeer]
    returns false and leaves [authorityPeerId] at its previous value: the
    field is not reset to null. *)
Theorem updateAuthorityPeer_no_candidate (e : Entity) :
  entityType e = PROT_ENTITY_MONSTER ->
  currentPeerHasLoaded (sceneOf e).1 e = false ->
  (forall l player, (sceneOf e).2 = Some l -> In player l ->
                    eligible (entityId e) player = false) ->
  result (updateAuthorityPeer e) = false
  /\ authorityPeerId (after (updateAuthorityPeer e)) = authorityPeerId e
  /\ after (updateAuthorityPeer e) = e.
Proof.
  intros Ht Hc Hall. rewrite updateAuthorityPeer_not_found; [done| |].
  - by rewrite Hc, bool_decide_eq_true_2.
  - destruct ((sceneOf e).2) as [l|] eqn:Hpl; [|reflexivity].
    simpl. apply find_none_of_all_false. intros x Hx. by eapply Hall.
Qed.

(** C1 (amended).  [updateAuthorityPeer] returns true only if
    [authorityPeerId] is non-null after the call, and exactly when the
    entity is a Monster whose previous, non-null authority peer does not
    have it loaded any more and an eligible player that has it loaded is
    found.  On a Monster whose [authorityPeerId] is null before the call
    (and resolves to no peer holding the entity), with exactly one eligible
    player having the entity loaded, the call assigns that player's peer
    identifier and returns false. *)
Theorem updateAuthorityPeer_return (e : Entity) :
  let r := updateAuthorityPeer e in
  (result r = true -> authorityPeerId (after r) ≠ None)
  /\ (result r = true <->
      entityType e = PROT_ENTITY_MONSTER
      /\ currentPeerHasLoaded (sceneOf e).1 e = false
      /\ authorityPeerId e ≠ None
      /\ exists player,
           (sceneOf e).2 ≫= List.find (eligible (entityId e)) = Some player)
  /\ (forall l player,
        entityType e = PROT_ENTITY_MONSTER ->
        authorityPeerId e = None ->
        currentPeerHasLoaded (sceneOf e).1 e = false ->
        (sceneOf e).2 = Some l ->
        List.filter (eligible (entityId e)) l = [player] ->
        authorityPeerId (after r) = Some (peerId player)
        /\ result r = false).
Proof.
  cbv zeta.
  destruct (negb (bool_decide (entityType e = PROT_ENTITY_MONSTER))
            || currentPeerHasLoaded (sceneOf e).1 e) eqn:Hg.
  - rewrite (updateAuthorityPeer_guard e Hg). unfold result, after. simpl.
    split; [discriminate|]. split; [split; [discriminate|]|].
    + intros (Ht & Hc & _). rewrite Hc, bool_decide_eq_true_2 in Hg; done.
    + intros l player Ht _ Hc _ _.
      rewrite Hc, bool_decide_eq_true_2 in Hg; done.
  - pose proof Hg as Hg'. apply orb_false_iff in Hg' as [Ht Hc].
    apply negb_false_iff, bool_decide_eq_true in Ht.
    destruct ((sceneOf e).2 ≫= List.find (eligible (entityId e)))
      as [found|] eqn:Hf.
    + rewrite (updateAuthorityPeer_found e found Hg Hf).
      unfold result, after. simpl.
      split; [done|]. split; [split|].
      * intros Hr. apply bool_decide_eq_true in Hr. eauto 6.
      * intros (_ & _ & Hn & _). by apply bool_decide_eq_true.
      * intros l player _ Hn _ Hl Hfil.
        rewrite Hl in Hf. simpl in Hf.
        rewrite (find_first_of_filter _ _ _ _ Hfil) in Hf.
        split; [congruence|]. apply bool_decide_eq_false_2. intros Hne. by apply Hne.
    + rewrite (updateAuthorityPeer_not_found e Hg Hf).
      unfold result, after. simpl.
      split; [discriminate|]. split; [split; [discriminate|]|].
      * intros (_ & _ & _ & [p Hp]). discriminate.
      * intros l player _ _ _ Hl Hfil.
        rewrite Hl in Hf. simpl in Hf.
        rewrite (find_first_of_filter _ _ _ _ Hfil) in Hf. discriminate.
Qed.

End Authority.

(** ** Life state *)
Section LifeState.
Context {ext : ExternalTypes}.

Lemma handleDeath_detached (e : Entity) :
  manager e = None -> handleDeath e = (tt, e, []).
Proof.
  intros Hm. unfold handleDeath, mbind, M_bind, this. by rewrite Hm.
Qed.

Lemma handleDeath_attached (e : Entity) (m : EntityManager) :
  manager e = Some m ->
  handleDeath e
  = (tt, e, [CallLifeStateChangeBroadcast (broadcastContextList (scene m)) e;
             CallManagerRemove e VISION_DIE]).
Proof.
  intros Hm. unfold handleDeath, mbind, M_bind, this. by rewrite Hm.
Qed.

Lemma handleDeath_after (e : Entity) : after (handleDeath e) = e.
Proof.
  destruct (manager e) as [m|] eqn:Hm.
  - by rewrite (handleDeath_attached e m Hm).
  - by rewrite (handleDeath_detached e Hm).
Qed.

Lemma kill_not_alive (attacker : Z) (die : PlayerDieTypeEnum) (e : Entity) :
  isAlive e = false -> kill attacker die e = (tt, e, []).
Proof.
  intros Ha. unfold kill, mbind, M_bind, this. by rewrite Ha.
Qed.

Lemma kill_alive (attacker : Z) (die : PlayerDieTypeEnum) (e : Entity) :
  isAlive e = true ->
  kill attacker die e
  = (tt, killed attacker die e,
     CallEmit Death (killed attacker die e)
       :: calls (handleDeath (killed attacker die e))).
Proof.
  intros Ha. unfold kill, emit, mbind, M_bind, this, assign, call.
  rewrite Ha. simpl. fold (killed attacker die e).
  pose proof (handleDeath_after (killed attacker die e)) as Hh.
  destruct (handleDeath (killed attacker die e)) as [[[] e'] t].
  unfold after, calls in *. simpl in *. by subst.
Qed.

Lemma revive_alive (val : option float) (e : Entity) :
  isAlive e = true -> revive val e = (tt, e, []).
Proof.
  intros Ha. unfold revive, mbind, M_bind, this. by rewrite Ha.
Qed.

Lemma revive_not_alive (val : option float) (e : Entity) :
  isAlive e = false ->
  revive val e
  = (tt, revived val e,
     [CallFightPropSet FIGHT_PROP_CUR_HP
        (reviveHp val (FightProp_get (fightProps e) FIGHT_PROP_MAX_HP)) true;
      CallEmit Revive (revived val e)]).
Proof.
  intros Ha.
  unfold revive, emit, fightProps_set, mbind, M_bind, this, assign, call.
  rewrite Ha. reflexivity.
Qed.

Lemma FightProp_get_store (fp : FightProp) (k : FightPropEnum) (v : float) :
  FightProp_get (FightProp_set fp k v) k = v.
Proof.
  unfold FightProp_get, FightProp_set. simpl. by rewrite lookup_insert_eq.
Qed.

(** *** Order of doubles

    The comparison of two doubles is that of their [spec_float] images
    ([ltb_spec], [leb_spec], [eqb_spec]). *)

Lemma SFcompare_refl (x : spec_float) :
  x <> S754_nan -> SFcompare x x = Some Eq.
Proof.
  destruct x as [s|s| |s m e]; simpl; intros H; try congruence.
  - by destruct s.
  - destruct s; rewrite Z.compare_refl, Pos.compare_cont_refl; reflexivity.
Qed.

Lemma SFcompare_antisym (x y : spec_float) (c : comparison) :
  SFcompare x y = Some c -> SFcompare y x = Some (CompOpp c).
Proof.
  destruct x as [sx|sx| |sx mx ex], y as [sy|sy| |sy my ey]; simpl;
    try discriminate; try destruct sx; try destruct sy;
    intros [= <-]; try reflexivity;
    change (Pos.compare_cont Eq) with Pos.compare;
    rewrite (Z.compare_antisym ex ey), (Pos.compare_antisym mx my);
    destruct (ex ?= ey), (mx ?= my)%positive; reflexivity.
Qed.

Lemma SFcompare_Eq (x y : spec_float) :
  SFcompare x y = Some Eq ->
  x = y \/ exists sx sy, x = S754_zero sx /\ y = S754_zero sy.
Proof.
  destruct x as [sx|sx| |sx mx ex], y as [sy|sy| |sy my ey]; simpl;
    try discriminate; try (destruct sx; discriminate);
    try (destruct sy; discriminate).
  - intros _. right. eauto.
  - destruct sx, sy; try discriminate; by left.
  - destruct sx, sy; try discriminate;
      destruct (Z.compare_spec ex ey) as [->|?|?]; try discriminate;
      change (Pos.compare_cont Eq mx my) with (mx ?= my)%positive;
      destruct (Pos.compare_spec mx my) as [->|?|?]; try discriminate;
      by left.
Qed.

Lemma SFcompare_trans (x y z : spec_float) (c1 c2 : comparison) :
  SFcompare x y = Some c1 -> SFcompare y z = Some c2 ->
  c1 <> Gt -> c2 <> Gt -> (c1 = Lt \/ c2 = Lt) ->
  SFcompare x z = Some Lt.
Proof.
  destruct x as [sx|sx| |sx mx ex], y as [sy|sy| |sy my ey],
    z as [sz|sz| |sz mz ez]; simpl; try discriminate;
    try destruct sx; try destruct sy; try destruct sz;
    intros [= <-] [= <-] H1 H2 H3; try congruence; try tauto;
    change (Pos.compare_cont Eq) with Pos.compare in *;
    repeat match goal with
    | H : context [(?a ?= ?b)%Z] |- _ => destruct (Z.compare_spec a b)
    | |- context [(?a ?= ?b)%Z] => destruct (Z.compare_spec a b)
    | H : context [(?a ?= ?b)%positive] |- _ => destruct (Pos.compare_spec a b)
    | |- context [(?a ?= ?b)%positive] => destruct (Pos.compare_spec a b)
    end; subst; simpl in *; try congruence; try tauto; try lia;
    try (destruct H3; discriminate).
Qed.

Lemma SFcompare_total (x y : spec_float) :
  x <> S754_nan -> y <> S754_nan -> exists c, SFcompare x y = Some c.
Proof.
  destruct x as [sx|sx| |sx mx ex], y as [sy|sy| |sy my ey]; simpl;
    intros Hx Hy; try congruence; eauto.
Qed.

Lemma Prim2SF_inj (x y : float) : Prim2SF x = Prim2SF y -> x = y.
Proof.
  intros H. rewrite <- (SF2Prim_Prim2SF x), <- (SF2Prim_Prim2SF y).
  by rewrite H.
Qed.

Lemma is_nan_Prim2SF (x : float) :
  is_nan x = false <-> Prim2SF x <> S754_nan.
Proof.
  unfold is_nan. rewrite FloatAxioms.eqb_spec. unfold SFeqb. split.
  - intros H Hn. rewrite Hn in H. discriminate H.
  - intros H. by rewrite (SFcompare_refl _ H).
Qed.

Lemma ltb_compare (x y : float) :
  (x <? y)%float = true <-> SFcompare (Prim2SF x) (Prim2SF y) = Some Lt.
Proof.
  rewrite ltb_spec. unfold SFltb.
  destruct (SFcompare (Prim2SF x) (Prim2SF y)) as [[]|]; split; congruence.
Qed.

Lemma leb_compare (x y : float) :
  (x <=? y)%float = true
  <-> SFcompare (Prim2SF x) (Prim2SF y) = Some Lt
      \/ SFcompare (Prim2SF x) (Prim2SF y) = Some Eq.
Proof.
  rewrite leb_spec. unfold SFleb.
  destruct (SFcompare (Prim2SF x) (Prim2SF y)) as [[]|]; split;
    intros; try tauto; try congruence; intuition congruence.
Qed.

(** How two doubles that are not NaN compare. *)
Lemma compared (x y : float) :
  is_nan x = false -> is_nan y = false ->
  ((x <? y)%float = true /\ (y <? x)%float = false
   /\ (x <=? y)%float = true)
  \/ ((x <? y)%float = false /\ (y <? x)%float = true
      /\ (y <=? x)%float = true)
  \/ ((x <? y)%float = false /\ (y <? x)%float = false
      /\ (x <=? y)%float = true /\ (y <=? x)%float = true
      /\ SFcompare (Prim2SF x) (Prim2SF y) = Some Eq).
Proof.
  intros Hx Hy. apply is_nan_Prim2SF in Hx, Hy.
  destruct (SFcompare (Prim2SF x) (Prim2SF y)) as [[]|] eqn:Hc.
  - pose proof (SFcompare_antisym _ _ _ Hc) as Hc'. simpl in Hc'.
    right. right. rewrite !ltb_spec, !leb_spec. unfold SFltb, SFleb.
    by rewrite Hc, Hc'.
  - pose proof (SFcompare_antisym _ _ _ Hc) as Hc'. simpl in Hc'.
    left. rewrite !ltb_spec, !leb_spec. unfold SFltb, SFleb.
    by rewrite Hc, Hc'.
  - pose proof (SFcompare_antisym _ _ _ Hc) as Hc'. simpl in Hc'.
    right. left. rewrite !ltb_spec, !leb_spec. unfold SFltb, SFleb.
    by rewrite Hc, Hc'.
  - exfalso. destruct (SFcompare_total _ _ Hx Hy) as [c Hc']. congruence.
Qed.

Lemma compare_not_nan (x y : float) (c : comparison) :
  SFcompare (Prim2SF x) (Prim2SF y) = Some c ->
  is_nan x = false /\ is_nan y = false.
Proof.
  intros Hc. split; apply is_nan_Prim2SF; intros Hn; rewrite Hn in Hc.
  - discriminate Hc.
  - by destruct (Prim2SF x).
Qed.

Lemma leb_not_nan (x y : float) :
  (x <=? y)%float = true -> is_nan x = false /\ is_nan y = false.
Proof.
  intros H. apply leb_compare in H as [H|H]; by apply compare_not_nan in H.
Qed.

Lemma ltb_not_nan (x y : float) :
  (x <? y)%float = true -> is_nan x = false /\ is_nan y = false.
Proof. intros H. apply ltb_compare in H. by apply compare_not_nan in H. Qed.

Lemma ltb_leb (x y : float) : (x <? y)%float = true -> (x <=? y)%float = true.
Proof. intros H. apply leb_compare. left. by apply ltb_compare. Qed.

Lemma leb_ltb_false (x y : float) :
  (x <=? y)%float = true -> (y <? x)%float = false.
Proof.
  intros H. apply not_true_is_false. intros Hlt.
  apply ltb_compare, SFcompare_antisym in Hlt. simpl in Hlt.
  apply leb_compare in H as [H|H]; congruence.
Qed.

Lemma leb_refl (x : float) : is_nan x = false -> (x <=? x)%float = true.
Proof.
  intros H. apply leb_compare. right.
  by apply SFcompare_refl, is_nan_Prim2SF.
Qed.

Lemma ltb_trans (x y z : float) :
  (x <? y)%float = true -> (y <? z)%float = true -> (x <? z)%float = true.
Proof.
  rewrite !ltb_compare. intros H1 H2.
  by apply (SFcompare_trans _ _ _ _ _ H1 H2); eauto.
Qed.

(** Two doubles that compare equal, one of them being 1, are the same. *)
Lemma compare_Eq_one (x : float) :
  SFcompare (Prim2SF 1) (Prim2SF x) = Some Eq -> x = 1%float.
Proof.
  intros H. apply SFcompare_Eq in H as [H|(s1 & s2 & H & _)].
  - symmetry. by apply Prim2SF_inj.
  - vm_compute in H. discriminate H.
Qed.

(** [Math.max(1, v)] and [Math.min(a, b)] by cases. *)
Lemma Math_max_one (v : float) :
  is_nan v = false ->
  Math_max 1 v = if (1 <? v)%float then v else 1%float.
Proof.
  intros Hv. unfold Math_max. rewrite Hv.
  change (is_nan 1) with false. change (is_zero 1) with false. simpl.
  by destruct (1 <? v)%float, (v <? 1)%float.
Qed.

Lemma Math_min_cases (a b : float) :
  is_nan a = false -> is_nan b = false ->
  ((a <? b)%float = true -> Math_min a b = a)
  /\ ((a <? b)%float = false -> (b <? a)%float = true -> Math_min a b = b)
  /\ ((a <? b)%float = false -> (b <? a)%float = false ->
      Math_min a b = a \/ Math_min a b = b).
Proof.
  intros Ha Hb. unfold Math_min. rewrite Ha, Hb. simpl.
  split; [by intros ->|]. split; [by intros -> ->|].
  intros -> ->. destruct (is_zero a && negb (get_sign a)); tauto.
Qed.

Lemma Math_nan (a b : float) :
  is_nan a || is_nan b = true -> Math_max a b = nan /\ Math_min a b = nan.
Proof. intros H. unfold Math_max, Math_min. by rewrite H. Qed.

Lemma Math_min_one (maxHp : float) :
  (1 <=? maxHp)%float = true -> Math_min maxHp 1 = 1%float.
Proof.
  intros H. destruct (leb_not_nan _ _ H) as [_ Hm].
  destruct (Math_min_cases maxHp 1 Hm eq_refl) as (_ & H2 & H3).
  pose proof (leb_ltb_false _ _ H) as Hlt.
  destruct (1 <? maxHp)%float eqn:H1; [by apply H2|].
  destruct (compared 1 maxHp eq_refl Hm)
    as [(E & _)|[(_ & E & _)|(_ & _ & _ & _ & E)]]; try congruence.
  apply compare_Eq_one in E. subst maxHp. reflexivity.
Qed.

(** [revive(v)] stores the clamp of [v] when the maximum is at least 1. *)
Lemma reviveHp_clamp (v maxHp : float) :
  is_nan v = false -> (1 <=? maxHp)%float = true ->
  reviveHp (Some v) maxHp = spec_clamp v 1 maxHp.
Proof.
  intros Hv Hm. destruct (leb_not_nan _ _ Hm) as [_ Hmn].
  unfold reviveHp, spec_clamp. rewrite (Math_max_one v Hv).
  destruct (compared 1 v eq_refl Hv)
    as [(E1 & E2 & _)|[(E1 & E2 & _)|(E1 & E2 & _ & _ & E)]].
  - rewrite E1, E2.
    destruct (Math_min_cases maxHp v Hmn Hv) as (H1 & H2 & H3).
    destruct (maxHp <? v)%float eqn:L1; [by apply H1|].
    destruct (v <? maxHp)%float eqn:L2; [by apply H2|].
    destruct (H3 eq_refl eq_refl) as [->| ->]; [|reflexivity].
    destruct (compared maxHp v Hmn Hv)
      as [(E' & _)|[(_ & E' & _)|(_ & _ & _ & _ & E')]]; try congruence.
    apply SFcompare_Eq in E' as [E'|(s1 & s2 & _ & E')].
    + by apply Prim2SF_inj.
    + apply ltb_compare in E1. rewrite E' in E1. vm_compute in E1.
      discriminate E1.
  - rewrite E1, E2. by apply Math_min_one.
  - apply compare_Eq_one in E. subst v.
    change (1 <? 1)%float with false. cbv iota.
    rewrite (leb_ltb_false _ _ Hm). by apply Math_min_one.
Qed.

End LifeState.

Section LifeStateClaims.
Context {ext : ExternalTypes}.

(** C3 (amended).  On a Dead entity, [revive(v)] sets the current HP to
    [Math.min(maxHp, Math.max(1, v))], which is [clamp(v, 1, maxHp)]
    whenever [maxHp] is at least 1 and [v] is not NaN, and [revive()] sets
    it to the double product [maxHp * 0.4], without rounding; in both
    cases [lifeState] becomes Alive, [dieType] none and [attackerId] null,
    nothing else changes, and the Revive event is raised last, on the
    entity in that state. *)
Theorem revive_dead (e : Entity) (val : option float) :
  lifeState e = LIFE_DEAD ->
  let r := revive val e in
  let maxHp := FightProp_get (fightProps e) FIGHT_PROP_MAX_HP in
  lifeState (after r) = LIFE_ALIVE
  /\ dieType (after r) = PLAYER_DIE_NONE
  /\ attackerId (after r) = None
  /\ FightProp_get (fightProps (after r)) FIGHT_PROP_CUR_HP = reviveHp val maxHp
  /\ (forall v, val = Some v ->
        reviveHp val maxHp = Math_min maxHp (Math_max 1 v)
        /\ (is_nan v = false -> (1 <=? maxHp)%float = true ->
            reviveHp val maxHp = spec_clamp v 1 maxHp))
  /\ (val = None -> reviveHp val maxHp = (maxHp * 0.4)%float)
  /\ after r = revived val e
  /\ calls r = [CallFightPropSet FIGHT_PROP_CUR_HP (reviveHp val maxHp) true;
                CallEmit Revive (after r)].
Proof.
  intros Hd. cbv zeta.
  rewrite revive_not_alive by (unfold isAlive; rewrite Hd; reflexivity).
  unfold after, calls. simpl.
  split; [done|]. split; [done|]. split; [done|].
  split; [apply FightProp_get_store|].
  split; [|split; [by intros ->|done]].
  intros v ->. split; [reflexivity|]. apply reviveHp_clamp.
Qed.

(** C7.  [kill] on a Dead entity and [revive] on an Alive entity return
    without changing the entity and without any call or event; a second
    [kill] after a first one changes nothing and raises nothing, so that
    [dieType] and [attackerId] stay as the first call set them. *)
Theorem kill_revive_absorbed (e : Entity) (a1 a2 : Z)
    (d1 d2 : PlayerDieTypeEnum) (val : option float) :
  (lifeState e = LIFE_DEAD -> kill a1 d1 e = (tt, e, []))
  /\ (lifeState e = LIFE_ALIVE -> revive val e = (tt, e, []))
  /\ kill a2 d2 (after (kill a1 d1 e)) = (tt, after (kill a1 d1 e), [])
  /\ (lifeState e = LIFE_ALIVE ->
      let e2 := after (kill a2 d2 (after (kill a1 d1 e))) in
      lifeState e2 = LIFE_DEAD /\ dieType e2 = d1 /\ attackerId e2 = Some a1).
Proof.
  split; [|split; [|split]].
  - intros Hd. apply kill_not_alive. unfold isAlive. by rewrite Hd.
  - intros Ha. apply revive_alive. unfold isAlive. by rewrite Ha.
  - destruct (isAlive e) eqn:Ha.
    + rewrite (kill_alive a1 d1 e Ha). by apply kill_not_alive.
    + rewrite (kill_not_alive a1 d1 e Ha). by apply kill_not_alive.
  - intros Ha. cbv zeta.
    assert (Hal : isAlive e = true) by (unfold isAlive; by rewrite Ha).
    assert (E1 : after (kill a1 d1 e) = killed a1 d1 e)
      by (by rewrite (kill_alive a1 d1 e Hal)).
    rewrite E1, (kill_not_alive a2 d2 (killed a1 d1 e)) by reflexivity.
    done.
Qed.

(** C10.  [kill] on an Alive entity makes it Dead whatever [godMode] is:
    the flag is not read, it is left as it was, and the entity reached
    from either value of the flag is the same up to the flag. *)
Theorem kill_ignores_godMode (e : Entity) (attacker : Z)
    (die : PlayerDieTypeEnum) (g : bool) :
  lifeState e = LIFE_ALIVE ->
  lifeState (after (kill attacker die (set_godMode g e))) = LIFE_DEAD
  /\ isDead (after (kill attacker die (set_godMode g e))) = true
  /\ godMode (after (kill attacker die (set_godMode g e))) = g
  /\ after (kill attacker die (set_godMode g e))
     = set_godMode g (after (kill attacker die e)).
Proof.
  intros Ha.
  assert (H1 : isAlive e = true) by (unfold isAlive; by rewrite Ha).
  assert (H2 : isAlive (set_godMode g e) = true)
    by (unfold isAlive; simpl; by rewrite Ha).
  by rewrite (kill_alive _ _ _ H1), (kill_alive _ _ _ H2).
Qed.

(** [kill] on an Alive, attached entity: the Death event, then the
    broadcast, then the removal, each on the entity already Dead. *)
Lemma kill_attached_calls (e : Entity) (m : EntityManager) (attacker : Z)
    (die : PlayerDieTypeEnum) :
  lifeState e = LIFE_ALIVE -> manager e = Some m ->
  calls (kill attacker die e)
  = [CallEmit Death (killed attacker die e);
     CallLifeStateChangeBroadcast (broadcastContextList (scene m))
       (killed attacker die e);
     CallManagerRemove (killed attacker die e) VISION_DIE].
Proof.
  intros Ha Hm.
  rewrite kill_alive by (unfold isAlive; by rewrite Ha).
  by rewrite (handleDeath_attached (killed attacker die e) m Hm).
Qed.

(** C6.  On an entity attached to a manager, [handleDeath] first calls the
    life-state-change broadcast with the whole list of broadcast contexts
    of the manager's scene, and after it the manager's [remove] with the
    reason [VISION_DIE], and nothing else; on a detached entity it makes no
    call.  The entity itself is not changed in either case. *)
Theorem handleDeath_order (e : Entity) :
  (forall m, manager e = Some m ->
     calls (handleDeath e)
     = [CallLifeStateChangeBroadcast (broadcastContextList (scene m)) e;
        CallManagerRemove e VISION_DIE])
  /\ (manager e = None -> calls (handleDeath e) = [])
  /\ after (handleDeath e) = e.
Proof.
  split; [|split].
  - intros m Hm. by rewrite (handleDeath_attached e m Hm).
  - intros Hm. by rewrite (handleDeath_detached e Hm).
  - apply handleDeath_after.
Qed.

End LifeStateClaims.

(** ** Snapshot export *)
Section Snapshot.
Context {ext : ExternalTypes} {var : VariantBuilders}.

(** The two last-move fields are decided before the variant switch, and no
    branch of the switch touches them. *)
Lemma exportSceneEntityInfo_lastMove (e : Entity) :
  lastMoveSceneTimeMs (exportSceneEntityInfo e) = sceneTime (motionInfo e)
  /\ lastMoveReliableSeq (exportSceneEntityInfo e) = reliableSeq (motionInfo e).
Proof.
  unfold exportSceneEntityInfo.
  destruct (sceneTime (motionInfo e)), (reliableSeq (motionInfo e)),
    (entityType e); done.
Qed.

(** C8.  The snapshot has the field [lastMoveSceneTimeMs] exactly when the
    motion tracker's [sceneTime] is non-null, and the field
    [lastMoveReliableSeq] exactly when its [reliableSeq] is non-null; a
    field that is present holds the tracker's value. *)
Theorem exportSceneEntityInfo_lastMove_iff (e : Entity) :
  (lastMoveSceneTimeMs (exportSceneEntityInfo e) ≠ None
   <-> sceneTime (motionInfo e) ≠ None)
  /\ (lastMoveReliableSeq (exportSceneEntityInfo e) ≠ None
      <-> reliableSeq (motionInfo e) ≠ None)
  /\ lastMoveSceneTimeMs (exportSceneEntityInfo e) = sceneTime (motionInfo e)
  /\ lastMoveReliableSeq (exportSceneEntityInfo e) = reliableSeq (motionInfo e).
Proof.
  destruct (exportSceneEntityInfo_lastMove e) as [-> ->]. done.
Qed.

(** C5.  The snapshot of an NPC has no [lifeState] field, no [abilityInfo]
    in its authority block and an empty [propList], and of the four variant
    fields it has [npc] only, holding the result of the NPC builder; the
    snapshots of an Avatar, a Monster and a Gadget have exactly the variant
    field of their own type, holding the result of its builder. *)
Theorem exportSceneEntityInfo_variant (e : Entity) :
  let s := exportSceneEntityInfo e in
  (entityType e = PROT_ENTITY_NPC ->
     sei_lifeState s = None
     /\ abilityInfo (entityAuthorityInfo s) = None
     /\ propList s = []
     /\ npc s = Some (exportSceneNpcInfo e)
     /\ avatar s = None /\ monster s = None /\ gadget s = None)
  /\ (entityType e = PROT_ENTITY_AVATAR ->
     avatar s = Some (exportSceneAvatarInfo e)
     /\ monster s = None /\ npc s = None /\ gadget s = None)
  /\ (entityType e = PROT_ENTITY_MONSTER ->
     monster s = Some (exportSceneMonsterInfo e)
     /\ avatar s = None /\ npc s = None /\ gadget s = None)
  /\ (entityType e = PROT_ENTITY_GADGET ->
     gadget s = Some (exportSceneGadgetInfo e)
     /\ avatar s = None /\ monster s = None /\ npc s = None).
Proof.
  cbv zeta. unfold exportSceneEntityInfo.
  split; [|split; [|split]]; intros Ht; rewrite Ht;
    destruct (sceneTime (motionInfo e)), (reliableSeq (motionInfo e));
    done.
Qed.

(** Outside the NPC branch the common fields stay as first built. *)
Lemma exportSceneEntityInfo_common (e : Entity) :
  entityType e ≠ PROT_ENTITY_NPC ->
  sei_lifeState (exportSceneEntityInfo e) = Some (lifeState e)
  /\ abilityInfo (entityAuthorityInfo (exportSceneEntityInfo e)) = Some tt
  /\ propList (exportSceneEntityInfo e)
     = [EntityProps_exportPropPair (props e) PROP_LEVEL].
Proof.
  intros Ht. unfold exportSceneEntityInfo.
  destruct (sceneTime (motionInfo e)), (reliableSeq (motionInfo e)),
    (entityType e); done.
Qed.

End Snapshot.

(** ** Persistence *)
Section Persistence.
Context {ext : ExternalTypes} {eng : Engines}.

(** The entity [fresh] after [init] has stored the persisted data and
    before the two refreshes. *)
Lemma init_steps (userData : EntityUserData) (fresh : Entity) :
  init userData fresh
  = (abilityList_update;; fightProps_update)
      (set_fightProps (FightProp_init (fightPropsData userData))
         (set_props (EntityProps_init (propsData userData))
            (set_lifeState
               (if isNumber (ud_lifeState userData)
                then ud_lifeState userData else LIFE_ALIVE) fresh))).
Proof. reflexivity. Qed.


End Persistence.

(** ** The properties on concrete scenes *)
Section Concrete.
Import Examples.

(** An NPC standing in a scene with eligible players is left alone. *)
Lemma updateAuthorityPeer_non_monster_witness :
  entityType npcEntity ≠ PROT_ENTITY_MONSTER
  /\ result (updateAuthorityPeer npcEntity) = false
  /\ authorityPeerId (after (updateAuthorityPeer npcEntity))
     = authorityPeerId npcEntity.
Proof.
  assert (H : entityType npcEntity ≠ PROT_ENTITY_MONSTER)
    by (vm_compute; discriminate).
  split; [exact H|].
  destruct (updateAuthorityPeer_non_monster npcEntity H) as (Hr & Ha & _).
  split; [exact Hr | exact Ha].
Defined.

(** The stale authority of [monsterStale] survives the call. *)
Lemma updateAuthorityPeer_no_candidate_witness :
  result (updateAuthorityPeer monsterStale) = false
  /\ authorityPeerId (after (updateAuthorityPeer monsterStale)) = Some 7.
Proof.
  destruct (updateAuthorityPeer_no_candidate monsterStale) as (Hr & Ha & _).
  - reflexivity.
  - vm_compute. reflexivity.
  - intros l player Hl Hin. vm_compute in Hl.
    injection Hl as <-.
    destruct Hin as [<-|[<-|[]]]; vm_compute; reflexivity.
  - split; [exact Hr | exact Ha].
Defined.

(** C2 fails as stated: [monsterStale] is a Monster whose authority peer 7
    is not connected, in a scene without eligible player holding it, and
    after the call its [authorityPeerId] is 7, not null. *)
Lemma updateAuthorityPeer_stale_kept :
  entityType monsterStale = PROT_ENTITY_MONSTER
  /\ getPeer (worldOf [player6; player8]) (authorityPeerId monsterStale) = None
  /\ List.filter (eligible (entityId monsterStale)) [player6; player8] = []
  /\ authorityPeerId (after (updateAuthorityPeer monsterStale)) = Some 7
  /\ ~ (authorityPeerId (after (updateAuthorityPeer monsterStale)) = None
        /\ result (updateAuthorityPeer monsterStale) = false).
Proof.
  repeat split; try (vm_compute; reflexivity).
  intros [H _]. vm_compute in H. discriminate H.
Qed.

(** The first assignment on [monsterFresh] goes to player 5, the only
    eligible player holding it, and returns false. *)
Lemma updateAuthorityPeer_return_witness :
  authorityPeerId (after (updateAuthorityPeer monsterFresh)) = Some 5
  /\ result (updateAuthorityPeer monsterFresh) = false.
Proof.
  destruct (updateAuthorityPeer_return monsterFresh) as (_ & _ & H).
  apply (H [player6; player8; player5] player5); vm_compute; reflexivity.
Defined.

(** C1 fails as stated: on [monsterFresh], a Monster with a null authority
    and exactly one eligible peer holding it, the call assigns peer 5 and
    returns false; on [monsterKept], whose authority peer still holds it,
    the call returns false with a non-null authority. *)
Lemma updateAuthorityPeer_return_counterexample :
  entityType monsterFresh = PROT_ENTITY_MONSTER
  /\ authorityPeerId monsterFresh = None
  /\ List.filter (eligible (entityId monsterFresh)) [player6; player8; player5]
     = [player5]
  /\ authorityPeerId (after (updateAuthorityPeer monsterFresh)) = Some 5
  /\ result (updateAuthorityPeer monsterFresh) = false
  /\ ~ (result (updateAuthorityPeer monsterFresh) = true
        <-> authorityPeerId (after (updateAuthorityPeer monsterFresh)) ≠ None)
  /\ ~ (result (updateAuthorityPeer monsterKept) = true
        <-> authorityPeerId (after (updateAuthorityPeer monsterKept)) ≠ None).
Proof.
  repeat split; try (vm_compute; reflexivity).
  - intros [_ H]. assert (Hf : false = true); [|discriminate Hf].
    apply H. vm_compute. discriminate.
  - intros [_ H]. assert (Hf : false = true); [|discriminate Hf].
    apply H. vm_compute. discriminate.
Qed.

(** With a maximum HP below 1 the value of [revive(v)] is the maximum, not
    the floor of 1; with a NaN target it is NaN; the default of a maximum
    of 3 is the double next above 1.2. *)
Lemma reviveHp_edges :
  reviveHp (Some 0.7%float) 0.5%float = 0.5%float
  /\ reviveHp (Some nan) 300%float = nan
  /\ reviveHp None 3%float = 1.2000000000000002%float.
Proof. repeat split; vm_compute; reflexivity. Qed.

(** Reviving [monsterDead] with a target above its maximum and without
    target. *)
Lemma revive_dead_witness :
  lifeState monsterDead = LIFE_DEAD
  /\ lifeState (after (revive (Some 7%float) monsterDead)) = LIFE_ALIVE
  /\ dieType (after (revive (Some 7%float) monsterDead)) = PLAYER_DIE_NONE
  /\ attackerId (after (revive (Some 7%float) monsterDead)) = None
  /\ FightProp_get (fightProps (after (revive (Some 7%float) monsterDead)))
       FIGHT_PROP_CUR_HP
     = 1%float
  /\ FightProp_get (fightProps (after (revive None monsterDead)))
       FIGHT_PROP_CUR_HP
     = 0.4%float.
Proof.
  assert (H : lifeState monsterDead = LIFE_DEAD) by reflexivity.
  split; [exact H|].
  destruct (revive_dead monsterDead (Some 7%float) H)
    as (H1 & H2 & H3 & H4 & _).
  destruct (revive_dead monsterDead None H) as (_ & _ & _ & H5 & _).
  exact (conj H1 (conj H2 (conj H3 (conj H4 H5)))).
Defined.

(** C3 fails as stated: [monsterDead] has a maximum HP of 1; [revive()]
    sets its current HP to the double 0.4, which stands for a number
    that is not an integer, while [round(0.4 * 1)] is 0. *)
Lemma revive_default_not_rounded :
  lifeState monsterDead = LIFE_DEAD
  /\ FightProp_get (fightProps monsterDead) FIGHT_PROP_MAX_HP = 1%float
  /\ FightProp_get (fightProps (after (revive None monsterDead)))
       FIGHT_PROP_CUR_HP = 0.4%float
  /\ (q ← valueOf (FightProp_get (fightProps monsterDead) FIGHT_PROP_MAX_HP);
      Some (spec_round ((4 # 10) * q))) = Some 0
  /\ FightProp_get (fightProps (after (revive None monsterDead)))
       FIGHT_PROP_CUR_HP <> 0%float
  /\ (forall q,
        valueOf (FightProp_get (fightProps (after (revive None monsterDead)))
                   FIGHT_PROP_CUR_HP) = Some q ->
        ~ (q == inject_Z 0)%Q).
Proof.
  split; [reflexivity|]. split; [vm_compute; reflexivity|].
  split; [vm_compute; reflexivity|]. split; [vm_compute; reflexivity|].
  split.
  - intros H. apply (f_equal Prim2SF) in H. vm_compute in H. discriminate H.
  - intros q Hq. vm_compute in Hq. injection Hq as <-.
    vm_compute. discriminate.
Qed.



(** The snapshot of [npcEntity] under builders that fill in every variant. *)
Lemma exportSceneEntityInfo_variant_witness :
  entityType npcEntity = PROT_ENTITY_NPC
  /\ sei_lifeState (exportSceneEntityInfo npcEntity) = None
  /\ abilityInfo (entityAuthorityInfo (exportSceneEntityInfo npcEntity)) = None
  /\ propList (exportSceneEntityInfo npcEntity) = []
  /\ npc (exportSceneEntityInfo npcEntity) = Some (Some 100)
  /\ avatar (exportSceneEntityInfo npcEntity) = None
  /\ monster (exportSceneEntityInfo npcEntity) = None
  /\ gadget (exportSceneEntityInfo npcEntity) = None.
Proof.
  assert (H : entityType npcEntity = PROT_ENTITY_NPC) by reflexivity.
  split; [exact H|].
  destruct (exportSceneEntityInfo_variant (var := var0) npcEntity) as (Hn & _).
  exact (Hn H).
Defined.

(** [monsterFresh] has recorded a move time but no sequence number. *)
Lemma exportSceneEntityInfo_lastMove_iff_witness :
  lastMoveSceneTimeMs (exportSceneEntityInfo monsterFresh) = Some 1500
  /\ lastMoveReliableSeq (exportSceneEntityInfo monsterFresh) = None.
Proof.
  destruct (exportSceneEntityInfo_lastMove_iff (var := var0) monsterFresh)
    as (_ & _ & H1 & H2).
  split; [exact H1 | exact H2].
Defined.

(** The Death handler on an attached and on a detached entity. *)
Lemma handleDeath_order_witness :
  calls (handleDeath monsterFresh)
  = [CallLifeStateChangeBroadcast [1; 2] monsterFresh;
     CallManagerRemove monsterFresh VISION_DIE]
  /\ calls (handleDeath avatarDetached) = [].
Proof.
  destruct (handleDeath_order monsterFresh) as (H1 & _ & _).
  destruct (handleDeath_order avatarDetached) as (_ & H2 & _).
  split; [exact (H1 _ eq_refl) | exact (H2 eq_refl)].
Defined.

(** [kill] on the dead [monsterDead], [revive] on the alive [monsterFresh],
    and two [kill]s in a row on [monsterFresh]. *)
Lemma kill_revive_absorbed_witness :
  kill 9 PLAYER_DIE_NONE monsterDead = (tt, monsterDead, [])
  /\ revive (Some 5%float) monsterFresh = (tt, monsterFresh, [])
  /\ dieType (after (kill 9 PLAYER_DIE_NONE
                       (after (kill 42 (PLAYER_DIE_OTHER 3) monsterFresh))))
     = PLAYER_DIE_OTHER 3
  /\ attackerId (after (kill 9 PLAYER_DIE_NONE
                          (after (kill 42 (PLAYER_DIE_OTHER 3) monsterFresh))))
     = Some 42.
Proof.
  destruct (kill_revive_absorbed monsterDead 9 9 PLAYER_DIE_NONE
              PLAYER_DIE_NONE None) as (H1 & _).
  destruct (kill_revive_absorbed monsterFresh 42 9 (PLAYER_DIE_OTHER 3)
              PLAYER_DIE_NONE (Some 5%float)) as (_ & H2 & _ & H3).
  destruct (H3 eq_refl) as (_ & H4 & H5).
  exact (conj (H1 eq_refl) (conj (H2 eq_refl) (conj H4 H5))).
Defined.

(** [kill] on [monsterFresh] in god mode. *)
Lemma kill_ignores_godMode_witness :
  godMode (set_godMode true monsterFresh) = true
  /\ lifeState (set_godMode true monsterFresh) = LIFE_ALIVE
  /\ lifeState (after (kill 42 PLAYER_DIE_NONE (set_godMode true monsterFresh)))
     = LIFE_DEAD.
Proof.
  split; [reflexivity|]. split; [reflexivity|].
  apply (kill_ignores_godMode monsterFresh 42 PLAYER_DIE_NONE true).
  reflexivity.
Defined.

End Concrete.

(** * Further properties of the entity *)

Lemma find_skips_prefix {A} (f : A -> bool) (l1 l2 : list A) (x : A) :
  (forall y, In y l1 -> f y = false) -> f x = true ->
  List.find f (l1 ++ x :: l2) = Some x.
Proof.
  intros Hpre Hx. induction l1 as [|y l1 IH]; simpl.
  - by rewrite Hx.
  - rewrite (Hpre y (or_introl eq_refl)). apply IH.
    intros z Hz. apply Hpre. by right.
Qed.

Section AuthorityMore.
Context {ext : ExternalTypes}.

(** X1.  Among several eligible players that have the entity loaded, the
    first one in the order of the player list becomes the authority of a
    Monster whose current authority is not kept; the call returns whether
    there was an authority before. *)
Theorem updateAuthorityPeer_first_match (e : Entity)
    (before rest : list Player) (player : Player) :
  entityType e = PROT_ENTITY_MONSTER ->
  currentPeerHasLoaded (sceneOf e).1 e = false ->
  (sceneOf e).2 = Some (before ++ player :: rest) ->
  (forall p, In p before -> eligible (entityId e) p = false) ->
  eligible (entityId e) player = true ->
  authorityPeerId (after (updateAuthorityPeer e)) = Some (peerId player)
  /\ after (updateAuthorityPeer e)
     = set_authorityPeerId (Some (peerId player)) e
  /\ result (updateAuthorityPeer e) = bool_decide (authorityPeerId e ≠ None).
Proof.
  intros Ht Hc Hl Hpre Hp.
  rewrite (updateAuthorityPeer_found e player).
  - done.
  - by rewrite Hc, bool_decide_eq_true_2.
  - rewrite Hl. simpl. by apply find_skips_prefix.
Qed.

Lemma updateAuthorityPeer_resolved (e : Entity) (m : EntityManager)
    (w : World) (peer : Player) :
  manager e = Some m ->
  world (scene m) = Some w ->
  getPeer w (authorityPeerId e) = Some peer ->
  includes (loadedEntityIdList peer) (entityId e) = true ->
  negb (bool_decide (entityType e = PROT_ENTITY_MONSTER))
    || currentPeerHasLoaded (sceneOf e).1 e = true.
Proof.
  intros Hm Hw Hg Hi.
  unfold sceneOf. rewrite Hm. simpl. rewrite Hw. simpl. rewrite Hg, Hi.
  apply orb_true_r.
Qed.

(** X2.  As long as the world resolves the current [authorityPeerId] to a
    peer that has the entity loaded, the call changes nothing and returns
    false, whatever the entity type, the peer's [noAuthority] flag and the
    player list are. *)
Theorem updateAuthorityPeer_keeps (e : Entity) (m : EntityManager)
    (w : World) (peer : Player) :
  manager e = Some m ->
  world (scene m) = Some w ->
  getPeer w (authorityPeerId e) = Some peer ->
  includes (loadedEntityIdList peer) (entityId e) = true ->
  updateAuthorityPeer e = (false, e, []).
Proof.
  intros Hm Hw Hg Hi. apply updateAuthorityPeer_guard.
  by apply (updateAuthorityPeer_resolved e m w peer).
Qed.

(** X3.  [updateAuthorityPeer] makes no call and writes no field other
    than [authorityPeerId]; the value it writes is the peer identifier of a
    player of the scene's list that is eligible and has the entity loaded;
    an authority that is set is never cleared. *)
Theorem updateAuthorityPeer_frame (e : Entity) :
  calls (updateAuthorityPeer e) = []
  /\ (after (updateAuthorityPeer e) = e
      \/ exists l p,
           (sceneOf e).2 = Some l /\ In p l
           /\ eligible (entityId e) p = true
           /\ after (updateAuthorityPeer e)
              = set_authorityPeerId (Some (peerId p)) e)
  /\ (authorityPeerId e ≠ None ->
      authorityPeerId (after (updateAuthorityPeer e)) ≠ None).
Proof.
  destruct (negb (bool_decide (entityType e = PROT_ENTITY_MONSTER))
            || currentPeerHasLoaded (sceneOf e).1 e) eqn:Hg.
  - rewrite (updateAuthorityPeer_guard e Hg). split; [done|]. split; [by left|done].
  - destruct ((sceneOf e).2 ≫= List.find (eligible (entityId e)))
      as [found|] eqn:Hf.
    + rewrite (updateAuthorityPeer_found e found Hg Hf).
      split; [done|]. split; [|done].
      right. destruct ((sceneOf e).2) as [l|] eqn:Hl; [|discriminate].
      simpl in Hf. apply find_some in Hf as [Hin He].
      exists l, found. done.
    + rewrite (updateAuthorityPeer_not_found e Hg Hf).
      split; [done|]. split; [by left|done].
Qed.

(** X4.  On an entity without manager the call returns false and changes
    nothing, for every entity type and every previous authority. *)
Theorem updateAuthorityPeer_detached (e : Entity) :
  manager e = None -> updateAuthorityPeer e = (false, e, []).
Proof.
  intros Hm.
  assert (Hs : sceneOf e = (None, None)) by (unfold sceneOf; by rewrite Hm).
  destruct (bool_decide (entityType e = PROT_ENTITY_MONSTER)) eqn:Ht.
  - apply updateAuthorityPeer_not_found; rewrite Hs; simpl; [|done].
    by rewrite Ht.
  - apply updateAuthorityPeer_guard. by rewrite Ht.
Qed.

(** X5.  In a scene whose world resolves the peer identifier of every
    player of the list to that player, a second call right after a first
    one returns false and changes nothing: the authority chosen by the
    first call is kept. *)
Theorem updateAuthorityPeer_twice (e : Entity) (m : EntityManager)
    (w : World) (l : list Player) :
  manager e = Some m ->
  world (scene m) = Some w ->
  playerList (scene m) = Some l ->
  (forall p, In p l -> getPeer w (Some (peerId p)) = Some p) ->
  updateAuthorityPeer (after (updateAuthorityPeer e))
  = (false, after (updateAuthorityPeer e), []).
Proof.
  intros Hm Hw Hl Hres.
  assert (Hs : sceneOf e = (Some w, Some l))
    by (unfold sceneOf; by rewrite Hm, Hw, Hl).
  destruct (negb (bool_decide (entityType e = PROT_ENTITY_MONSTER))
            || currentPeerHasLoaded (sceneOf e).1 e) eqn:Hg.
  - rewrite (updateAuthorityPeer_guard e Hg). unfold after. simpl.
    by apply updateAuthorityPeer_guard.
  - destruct ((sceneOf e).2 ≫= List.find (eligible (entityId e)))
      as [found|] eqn:Hf.
    + rewrite (updateAuthorityPeer_found e found Hg Hf). unfold after. simpl.
      rewrite Hs in Hf. simpl in Hf. apply find_some in Hf as [Hin He].
      apply updateAuthorityPeer_guard.
      apply (updateAuthorityPeer_resolved _ m w found); simpl; try done.
      * by apply Hres.
      * unfold eligible in He. by apply andb_true_iff in He as [_ He].
    + rewrite (updateAuthorityPeer_not_found e Hg Hf). unfold after. simpl.
      by apply updateAuthorityPeer_not_found.
Qed.

End AuthorityMore.

Section LifeStateMore.
Context {ext : ExternalTypes}.

Lemma isAlive_true (e : Entity) : lifeState e = LIFE_ALIVE -> isAlive e = true.
Proof. intros H. unfold isAlive. by rewrite H. Qed.

Lemma isAlive_false (e : Entity) : lifeState e ≠ LIFE_ALIVE -> isAlive e = false.
Proof. intros H. unfold isAlive. by apply bool_decide_eq_false_2. Qed.

(** X6.  [kill] on an Alive entity makes it Dead, records the die type and
    the attacker and changes no other field; it raises Death on the entity
    in that state, and then, if the entity has a manager, broadcasts the
    life-state change and asks for the removal, both on the dead entity;
    without manager the Death event is the only call. *)
Theorem kill_alive_effect (e : Entity) (attacker : Z) (die : PlayerDieTypeEnum) :
  lifeState e = LIFE_ALIVE ->
  let e' := after (kill attacker die e) in
  lifeState e' = LIFE_DEAD
  /\ dieType e' = die
  /\ attackerId e' = Some attacker
  /\ e' = set_attackerId (Some attacker)
            (set_dieType die (set_lifeState LIFE_DEAD e))
  /\ (manager e = None -> calls (kill attacker die e) = [CallEmit Death e'])
  /\ (forall m, manager e = Some m ->
        calls (kill attacker die e)
        = [CallEmit Death e';
           CallLifeStateChangeBroadcast (broadcastContextList (scene m)) e';
           CallManagerRemove e' VISION_DIE]).
Proof.
  intros Ha. cbv zeta. rewrite (kill_alive _ _ _ (isAlive_true e Ha)).
  unfold after, calls. simpl.
  split; [done|]. split; [done|]. split; [done|]. split; [done|]. split.
  - intros Hm. by rewrite (handleDeath_detached (killed attacker die e) Hm).
  - intros m Hm. by rewrite (handleDeath_attached (killed attacker die e) m Hm).
Qed.

(** X7.  [kill] followed by [revive] on an Alive entity without manager
    gives back the entity with [dieType] none, [attackerId] null and the
    current HP set by [revive] from the unchanged maximum HP; every other
    field is as before the [kill].  The only calls of the two methods are
    the Death event, the store of the HP and the Revive event. *)
Theorem kill_then_revive (e : Entity) (attacker : Z) (die : PlayerDieTypeEnum)
    (val : option float) :
  lifeState e = LIFE_ALIVE ->
  manager e = None ->
  let hp := reviveHp val (FightProp_get (fightProps e) FIGHT_PROP_MAX_HP) in
  let e' := after (revive val (after (kill attacker die e))) in
  e' = set_fightProps (FightProp_set (fightProps e) FIGHT_PROP_CUR_HP hp)
         (set_attackerId None (set_dieType PLAYER_DIE_NONE e))
  /\ FightProp_get (fightProps e') FIGHT_PROP_CUR_HP = hp
  /\ calls (kill attacker die e) = [CallEmit Death (after (kill attacker die e))]
  /\ calls (revive val (after (kill attacker die e)))
     = [CallFightPropSet FIGHT_PROP_CUR_HP hp true; CallEmit Revive e'].
Proof.
  intros Ha Hm. cbv zeta.
  assert (Hk : kill attacker die e
               = (tt, killed attacker die e,
                  [CallEmit Death (killed attacker die e)])).
  { rewrite (kill_alive _ _ _ (isAlive_true e Ha)).
    by rewrite (handleDeath_detached (killed attacker die e) Hm). }
  rewrite Hk. cbn [after calls fst snd].
  rewrite (revive_not_alive val (killed attacker die e)) by reflexivity.
  cbn [after calls fst snd].
  assert (He : revived val (killed attacker die e)
               = set_fightProps
                   (FightProp_set (fightProps e) FIGHT_PROP_CUR_HP
                      (reviveHp val
                         (FightProp_get (fightProps e) FIGHT_PROP_MAX_HP)))
                   (set_attackerId None (set_dieType PLAYER_DIE_NONE e))).
  { unfold revived, killed. simpl. rewrite <- Ha. by destruct e. }
  rewrite He. split; [reflexivity|]. split; [|done].
  simpl. apply FightProp_get_store.
Qed.

(** X8.  After [kill] an entity is never Alive and after [revive] it is
    always Alive.  [kill] changes the entity or makes a call only on an
    Alive entity; [revive] does so on every entity that is not Alive, also
    in a life state that is not Dead. *)
Theorem kill_revive_postconditions (e : Entity) (attacker : Z)
    (die : PlayerDieTypeEnum) (val : option float) :
  lifeState (after (kill attacker die e)) ≠ LIFE_ALIVE
  /\ lifeState (after (revive val e)) = LIFE_ALIVE
  /\ (kill attacker die e = (tt, e, []) <-> lifeState e ≠ LIFE_ALIVE)
  /\ (revive val e = (tt, e, []) <-> lifeState e = LIFE_ALIVE).
Proof.
  destruct (decide (lifeState e = LIFE_ALIVE)) as [Ha|Hn].
  - rewrite (kill_alive _ _ _ (isAlive_true e Ha)).
    rewrite (revive_alive _ _ (isAlive_true e Ha)).
    unfold after. simpl. split; [done|]. split; [done|]. split; [|done].
    split; [|done]. intros Heq. injection Heq as Heq _.
    apply (f_equal lifeState) in Heq. simpl in Heq. congruence.
  - rewrite (kill_not_alive _ _ _ (isAlive_false e Hn)).
    rewrite (revive_not_alive _ _ (isAlive_false e Hn)).
    unfold after. simpl. split; [done|]. split; [done|]. split; [done|].
    split; [discriminate|done].
Qed.

(** X9.  A second [revive] right after a first one does nothing, whatever
    its target HP: the current HP stays as the first call set it. *)
Theorem revive_twice (e : Entity) (val1 val2 : option float) :
  revive val2 (after (revive val1 e)) = (tt, after (revive val1 e), []).
Proof.
  apply revive_alive.
  destruct (isAlive e) eqn:Ha.
  - by rewrite (revive_alive _ _ Ha).
  - by rewrite (revive_not_alive _ _ Ha).
Qed.

Lemma reviveHp_upper (v maxHp : float) :
  is_nan v = false -> is_nan maxHp = false ->
  (reviveHp (Some v) maxHp <=? maxHp)%float = true.
Proof.
  intros Hv Hm. unfold reviveHp. rewrite (Math_max_one v Hv).
  set (m := if (1 <? v)%float then v else 1%float).
  assert (Hmn : is_nan m = false) by (subst m; by destruct (1 <? v)%float).
  destruct (Math_min_cases maxHp m Hm Hmn) as (H1 & H2 & H3).
  destruct (compared maxHp m Hm Hmn)
    as [(E1 & _)|[(E1 & E2 & E3)|(E1 & E2 & _ & E3 & _)]].
  - rewrite (H1 E1). by apply leb_refl.
  - by rewrite (H2 E1 E2).
  - destruct (H3 E1 E2) as [-> | ->]; [by apply leb_refl|done].
Qed.

Lemma reviveHp_below_one (v maxHp : float) :
  is_nan v = false -> (maxHp <? 1)%float = true ->
  reviveHp (Some v) maxHp = maxHp.
Proof.
  intros Hv Hm. destruct (ltb_not_nan _ _ Hm) as [Hmn _].
  unfold reviveHp. rewrite (Math_max_one v Hv).
  destruct (1 <? v)%float eqn:E.
  - destruct (Math_min_cases maxHp v Hmn Hv) as (H1 & _). apply H1.
    by apply (ltb_trans _ 1%float).
  - destruct (Math_min_cases maxHp 1 Hmn eq_refl) as (H1 & _). by apply H1.
Qed.

Lemma reviveHp_inside (v maxHp : float) :
  (1 <=? v)%float = true -> (v <=? maxHp)%float = true ->
  reviveHp (Some v) maxHp = v.
Proof.
  intros H1 H2. destruct (leb_not_nan _ _ H1) as [_ Hv].
  assert (Hm : (1 <=? maxHp)%float = true).
  { apply leb_compare in H1 as [H1|H1].
    - apply leb_compare in H2 as [H2|H2]; apply leb_compare; left;
        by apply (SFcompare_trans _ _ _ _ _ H1 H2); eauto.
    - apply compare_Eq_one in H1. by subst v. }
  rewrite (reviveHp_clamp v maxHp Hv Hm). unfold spec_clamp.
  by rewrite (leb_ltb_false _ _ H1), (leb_ltb_false _ _ H2).
Qed.

(** X10.  On an entity that is not Alive, [revive(v)] stores NaN when [v]
    or the maximum HP is NaN.  Otherwise the stored HP is never above the
    maximum HP; it is at least 1 when the maximum is at least 1, it is the
    maximum itself when the maximum is below 1, and it is [v] when [v]
    lies between 1 and the maximum.  All comparisons are those of
    doubles. *)
Theorem revive_hp_bounds (e : Entity) (v : float) :
  lifeState e ≠ LIFE_ALIVE ->
  let maxHp := FightProp_get (fightProps e) FIGHT_PROP_MAX_HP in
  let hp := FightProp_get (fightProps (after (revive (Some v) e)))
              FIGHT_PROP_CUR_HP in
  (is_nan v || is_nan maxHp = true -> hp = nan)
  /\ (is_nan v = false -> is_nan maxHp = false -> (hp <=? maxHp)%float = true)
  /\ (is_nan v = false -> (1 <=? maxHp)%float = true -> (1 <=? hp)%float = true)
  /\ (is_nan v = false -> (maxHp <? 1)%float = true -> hp = maxHp)
  /\ ((1 <=? v)%float = true -> (v <=? maxHp)%float = true -> hp = v).
Proof.
  intros Hn. cbv zeta.
  set (maxHp := FightProp_get (fightProps e) FIGHT_PROP_MAX_HP).
  assert (Hhp : FightProp_get (fightProps (after (revive (Some v) e)))
                  FIGHT_PROP_CUR_HP = reviveHp (Some v) maxHp).
  { rewrite (revive_not_alive _ _ (isAlive_false e Hn)).
    unfold after. cbn [fst snd]. unfold revived, set_fightProps.
    cbn [fightProps]. apply FightProp_get_store. }
  rewrite Hhp. clearbody maxHp. clear Hhp.
  split; [|split; [|split; [|split]]].
  - intros H. unfold reviveHp.
    destruct (is_nan v) eqn:Hv.
    + destruct (Math_nan 1 v) as [-> _]; [by rewrite Hv, orb_true_r|].
      destruct (Math_nan maxHp nan) as [_ ->]; [apply orb_true_r|done].
    + simpl in H.
      destruct (Math_nan maxHp (Math_max 1 v)) as [_ ->]; [by rewrite H|done].
  - apply reviveHp_upper.
  - intros Hv Hm. rewrite (reviveHp_clamp v maxHp Hv Hm). unfold spec_clamp.
    destruct (v <? 1)%float eqn:E1; [reflexivity|].
    destruct (maxHp <? v)%float eqn:E2; [exact Hm|].
    destruct (compared 1 v eq_refl Hv)
      as [(_ & _ & E)|[(_ & E & _)|(_ & _ & E & _)]]; congruence.
  - apply reviveHp_below_one.
  - apply reviveHp_inside.
Qed.

End LifeStateMore.

Section PersistenceMore.
Context {ext : ExternalTypes} {eng : Engines}.

(** X11.  [init] takes the life state from the persisted data when it is
    a number and makes the entity Alive otherwise; it initialises the props
    store and the combat-stat store from the persisted data first, then
    refreshes the abilities on the entity so loaded, and last the combat
    stats on the entity with the refreshed abilities; no other field of
    the object changes. *)
Theorem init_effect (userData : EntityUserData) (fresh : Entity) :
  let l := if isNumber (ud_lifeState userData) then ud_lifeState userData
           else LIFE_ALIVE in
  let loaded :=
    set_fightProps (FightProp_init (fightPropsData userData))
      (set_props (EntityProps_init (propsData userData))
         (set_lifeState l fresh)) in
  let withAbilities := set_abilityList (AbilityList_update loaded) loaded in
  init userData fresh
  = (tt, set_fightProps (FightProp_update withAbilities) withAbilities,
     [CallAbilityListUpdate; CallFightPropUpdate])
  /\ (isNumber (ud_lifeState userData) = false ->
      lifeState (after (init userData fresh)) = LIFE_ALIVE)
  /\ (isNumber (ud_lifeState userData) = true ->
      lifeState (after (init userData fresh)) = ud_lifeState userData).
Proof.
  cbv zeta. rewrite init_steps. split; [reflexivity|].
  unfold after. simpl. split; by intros ->.
Qed.

(** X12.  The persisted shape keeps that an entity is dead but not how it
    died: restoring a killed entity into another object gives a Dead
    entity whose [dieType] and [attackerId] are those of that object, not
    the ones recorded by [kill]. *)
Theorem kill_export_init (e fresh : Entity) (attacker : Z)
    (die : PlayerDieTypeEnum) :
  lifeState e = LIFE_ALIVE ->
  let restored :=
    after (init (exportUserData (after (kill attacker die e))) fresh) in
  lifeState restored = LIFE_DEAD
  /\ isDead restored = true
  /\ dieType restored = dieType fresh
  /\ attackerId restored = attackerId fresh.
Proof.
  intros Ha. cbv zeta. rewrite init_steps.
  assert (Hk : after (kill attacker die e) = killed attacker die e).
  { rewrite kill_alive; [done|]. unfold isAlive. by rewrite Ha. }
  rewrite Hk. unfold after. simpl. done.
Qed.

(** X13.  [initNew] makes the entity Alive whatever it was and replaces
    the props store by a fresh one for the requested level, or for level 1
    when none is given; only then it refreshes the abilities, and last the
    combat stats on the entity with the refreshed abilities.  The
    combat-stat store is not reset before the refresh, and [dieType] and
    [attackerId] are not reset at all. *)
Theorem initNew_effect (lv : option Z) (e : Entity) :
  let loaded :=
    set_props (EntityProps_initNew (default 1 lv))
      (set_lifeState LIFE_ALIVE e) in
  let withAbilities := set_abilityList (AbilityList_update loaded) loaded in
  initNew lv e
  = (tt, set_fightProps (FightProp_update withAbilities) withAbilities,
     [CallAbilityListUpdate; CallFightPropUpdate])
  /\ (lv = None -> props (after (initNew lv e)) = EntityProps_initNew 1)
  /\ fightProps loaded = fightProps e
  /\ dieType (after (initNew lv e)) = dieType e
  /\ attackerId (after (initNew lv e)) = attackerId e.
Proof.
  cbv zeta. split; [reflexivity|]. split; [by intros ->|]. done.
Qed.

End PersistenceMore.

Section AccessorsMore.
Context {ext : ExternalTypes}.

Lemma EntityProps_get_set (p : EntityProps) (k k' : PlayerPropEnum) (v : Z) :
  EntityProps_get (EntityProps_set p k v) k'
  = if decide (k = k') then v else EntityProps_get p k'.
Proof.
  unfold EntityProps_get, EntityProps_set. simpl.
  destruct (decide (k = k')) as [->|Hne].
  - by rewrite lookup_insert_eq.
  - by rewrite lookup_insert_ne.
Qed.

(** X14.  The setters of [level], [exp] and [promoteLevel] write three
    different keys of the props store: each getter reads back the value
    last written through its own setter and is not affected by the other
    two setters.  Each of the three setters makes no call and changes the
    props store only: the combat stats and every other field stay as they
    are. *)
Theorem level_exp_promoteLevel (e : Entity) (v : Z) :
  (level (after (set_level v e)) = v
   /\ exp (after (set_level v e)) = exp e
   /\ promoteLevel (after (set_level v e)) = promoteLevel e)
  /\ (exp (after (set_exp v e)) = v
      /\ level (after (set_exp v e)) = level e
      /\ promoteLevel (after (set_exp v e)) = promoteLevel e)
  /\ (promoteLevel (after (set_promoteLevel v e)) = v
      /\ level (after (set_promoteLevel v e)) = level e
      /\ exp (after (set_promoteLevel v e)) = exp e)
  /\ (set_props (props e) (after (set_level v e)) = e
      /\ fightProps (after (set_level v e)) = fightProps e
      /\ calls (set_level v e) = [])
  /\ (set_props (props e) (after (set_exp v e)) = e
      /\ fightProps (after (set_exp v e)) = fightProps e
      /\ calls (set_exp v e) = [])
  /\ (set_props (props e) (after (set_promoteLevel v e)) = e
      /\ fightProps (after (set_promoteLevel v e)) = fightProps e
      /\ calls (set_promoteLevel v e) = []).
Proof.
  unfold level, exp, promoteLevel, set_level, set_exp, set_promoteLevel,
    assign, after, calls. simpl.
  rewrite !EntityProps_get_set. destruct e. done.
Qed.

End AccessorsMore.

Section SnapshotMore.
Context {ext : ExternalTypes} {var : VariantBuilders}.

(** X15.  Every snapshot, of whatever entity type, carries the type, the
    identifier, the exported motion, the full combat-stat list, a
    one-element animator list and an authority block whose AI is open and
    whose two spawn positions are the entity's; outside the NPC case it
    also carries the life state, the ability info and a property list made
    of the level alone. *)
Theorem exportSceneEntityInfo_fields (e : Entity) :
  let s := exportSceneEntityInfo e in
  sei_entityType s = entityType e
  /\ sei_entityId s = entityId e
  /\ sei_motionInfo s = MotionInfo_export (motionInfo e)
  /\ fightPropList s = FightProp_exportPropList (fightProps e)
  /\ sei_animatorParaList s = [tt]
  /\ isAiOpen (aiInfo (entityAuthorityInfo s)) = true
  /\ ai_bornPos (aiInfo (entityAuthorityInfo s)) = Vector_export (bornPos e)
  /\ eai_bornPos (entityAuthorityInfo s) = Vector_export (bornPos e)
  /\ (entityType e ≠ PROT_ENTITY_NPC ->
      sei_lifeState s = Some (lifeState e)
      /\ abilityInfo (entityAuthorityInfo s) = Some tt
      /\ propList s = [(PROP_LEVEL, level e)]).
Proof.
  cbv zeta. unfold exportSceneEntityInfo.
  destruct (sceneTime (motionInfo e)), (reliableSeq (motionInfo e)),
    (entityType e); done.
Qed.

(** X16.  A snapshot has the [avatar], [monster], [npc] or [gadget] field
    exactly when the entity is of that type, so never two of them, and
    none at all for an entity of any other type. *)
Theorem exportSceneEntityInfo_variant_iff (e : Entity) :
  let s := exportSceneEntityInfo e in
  (avatar s ≠ None <-> entityType e = PROT_ENTITY_AVATAR)
  /\ (monster s ≠ None <-> entityType e = PROT_ENTITY_MONSTER)
  /\ (npc s ≠ None <-> entityType e = PROT_ENTITY_NPC)
  /\ (gadget s ≠ None <-> entityType e = PROT_ENTITY_GADGET).
Proof.
  cbv zeta. unfold exportSceneEntityInfo.
  destruct (sceneTime (motionInfo e)), (reliableSeq (motionInfo e)),
    (entityType e); simpl; repeat split; try done.
Qed.

End SnapshotMore.

(** * Properties of the server front *)
Module ServerFacts.
Import Stdlib.Strings.String Server.

Lemma count_app (f : Call -> bool) (t1 t2 : list Call) :
  count f (t1 ++ t2) = (count f t1 + count f t2)%nat.
Proof. unfold count. by rewrite List.filter_app, List.length_app. Qed.

Lemma count_cons (f : Call -> bool) (c : Call) (t : list Call) :
  count f (c :: t) = ((if f c then 1 else 0) + count f t)%nat.
Proof. unfold count. simpl. by destruct (f c). Qed.

Lemma attempts_step (op : HostOp) (throws : Throws) (host : string)
    (left i k : nat) :
  attempts op throws host (S left) i k
  = if throws k then
      if (10 <=? i)%nat then
        ([Hostile op "127.0.0.1" host; LogError (failedMessage op);
          Restart 15000], S k, true)
      else
        let '(t, k', returned) := attempts op throws host left (S i) (S k) in
        (Hostile op "127.0.0.1" host :: t, k', returned)
    else ([Hostile op "127.0.0.1" host], S k, false).
Proof. reflexivity. Qed.

(** The inner loop, when the try number [j] (from 0) is the first that does
    not throw. *)
Lemma attempts_until_success (op : HostOp) (throws : Throws) (host : string)
    (j : nat) :
  forall left i k : nat,
    (j < left)%nat -> (i + j <= 10)%nat ->
    (forall n, (n < j)%nat -> throws (k + n)%nat = true) ->
    throws (k + j)%nat = false ->
    attempts op throws host left i k
    = (replicate (S j) (Hostile op "127.0.0.1" host), (k + S j)%nat, false).
Proof.
  induction j as [|j IH]; intros left i k Hl Hi Hthrow Hok.
  - destruct left as [|left]; [lia|]. rewrite attempts_step.
    rewrite Nat.add_0_r in Hok. rewrite Hok.
    replace (k + 1)%nat with (S k) by lia. reflexivity.
  - destruct left as [|left]; [lia|]. rewrite attempts_step.
    pose proof (Hthrow 0%nat ltac:(lia)) as H0.
    rewrite Nat.add_0_r in H0. rewrite H0.
    destruct (10 <=? i)%nat eqn:Hi10; [apply Nat.leb_le in Hi10; lia|].
    rewrite (IH left (S i) (S k)).
    + replace (S k + S j)%nat with (k + S (S j))%nat by lia. reflexivity.
    + lia.
    + lia.
    + intros n Hn. replace (S k + n)%nat with (k + S n)%nat by lia.
      apply Hthrow. lia.
    + replace (S k + j)%nat with (k + S j)%nat by lia. exact Hok.
Qed.

(** The inner loop, when every remaining try throws. *)
Lemma attempts_all_throw (op : HostOp) (throws : Throws) (host : string) :
  forall left i k : nat,
    (0 < left)%nat -> (left + i = 11)%nat ->
    (forall n, (n < left)%nat -> throws (k + n)%nat = true) ->
    attempts op throws host left i k
    = (replicate left (Hostile op "127.0.0.1" host)
       ++ [LogError (failedMessage op); Restart 15000],
       (k + left)%nat, true).
Proof.
  induction left as [|left IH]; intros i k Hl Hi Hthrow; [lia|].
  rewrite attempts_step. pose proof (Hthrow 0%nat ltac:(lia)) as H0.
  rewrite Nat.add_0_r in H0. rewrite H0.
  destruct (10 <=? i)%nat eqn:Hi10.
  - apply Nat.leb_le in Hi10. assert (left = 0%nat) as -> by lia.
    simpl. replace (k + 1)%nat with (S k) by lia. reflexivity.
  - apply Nat.leb_gt in Hi10.
    rewrite (IH (S i) (S k)).
    + replace (S k + left)%nat with (k + S left)%nat by lia. reflexivity.
    + lia.
    + lia.
    + intros n Hn. replace (S k + n)%nat with (k + S n)%nat by lia.
      apply Hthrow. lia.
Qed.

(** X17.  For one host, [hostile] is called again after each throw, up to
    ten calls: when the first [j] calls throw and the next one does not,
    with [j] below 10, the loop makes [j + 1] calls and logs no error; when
    ten calls in a row throw, it makes exactly these ten calls, logs the
    failure, asks for a restart in 15000 ms and returns from the method. *)
Theorem attempts_retry (op : HostOp) (throws : Throws) (host : string)
    (k : nat) :
  (forall j, (j < 10)%nat ->
     (forall n, (n < j)%nat -> throws (k + n)%nat = true) ->
     throws (k + j)%nat = false ->
     attempts op throws host 10 1 k
     = (replicate (S j) (Hostile op "127.0.0.1" host), (k + S j)%nat, false))
  /\ ((forall n, (n < 10)%nat -> throws (k + n)%nat = true) ->
      attempts op throws host 10 1 k
      = (replicate 10 (Hostile op "127.0.0.1" host)
         ++ [LogError (failedMessage op); Restart 15000],
         (k + 10)%nat, true)).
Proof.
  split.
  - intros j Hj Hthrow Hok. apply attempts_until_success; (lia || done).
  - intros Hthrow. apply attempts_all_throw; (lia || done).
Qed.

(** What one run of the inner loop can log. *)
Lemma attempts_counts (op : HostOp) (throws : Throws) (host : string) :
  forall left i k : nat,
    let '(t, k', returned) := attempts op throws host left i k in
    (count isHostile t <= left)%nat
    /\ count isRestart t = (if returned then 1 else 0)%nat
    /\ count isFlushDNS t = 0%nat
    /\ (In (LogError (failedMessage op)) t <-> returned = true).
Proof.
  induction left as [|left IH]; intros i k.
  - simpl. repeat split; (done || lia || by intros []).
  - rewrite attempts_step. destruct (throws k).
    + destruct (10 <=? i)%nat.
      * repeat split; try (vm_compute; lia); try done.
        intros _. right. by left.
      * specialize (IH (S i) (S k)).
        destruct (attempts op throws host left (S i) (S k)) as [[t k'] r].
        destruct IH as (H1 & H2 & H3 & H4).
        rewrite !count_cons. simpl. repeat split; try lia; try done.
        -- intros [Hc|Hin]; [discriminate|]. by apply H4.
        -- intros Hr. right. by apply H4.
    + repeat split; try (vm_compute; lia); try done.
      intros [Hc|[]]. discriminate.
Qed.

Lemma hostsLoop_cons (op : HostOp) (throws : Throws) (host : string)
    (rest : list string) (k : nat) :
  hostsLoop op throws (host :: rest) k
  = let '(t, k', returned) := attempts op throws host 10 1 k in
    if returned then (t, true)
    else let '(t', r) := hostsLoop op throws rest k' in (t ++ t', r).
Proof. reflexivity. Qed.

Lemma hostsLoop_counts (op : HostOp) (throws : Throws) (hosts : list string) :
  forall k : nat,
    let '(t, returned) := hostsLoop op throws hosts k in
    (count isHostile t <= 10 * List.length hosts)%nat
    /\ count isRestart t = (if returned then 1 else 0)%nat
    /\ count isFlushDNS t = 0%nat
    /\ (In (LogError (failedMessage op)) t <-> returned = true).
Proof.
  induction hosts as [|host rest IH]; intros k.
  - simpl. repeat split; (done || lia || by intros []).
  - rewrite hostsLoop_cons. change (List.length (host :: rest)) with (S (List.length rest)).
    pose proof (attempts_counts op throws host 10 1 k) as Ha.
    destruct (attempts op throws host 10 1 k) as [[t k'] r].
    destruct Ha as (A1 & A2 & A3 & A4).
    destruct r.
    + repeat split; try lia; try done. by apply A4.
    + specialize (IH k').
      destruct (hostsLoop op throws rest k') as [t' r'].
      destruct IH as (H1 & H2 & H3 & H4).
      rewrite !count_app. repeat split; try lia.
      * intros Hin. apply in_app_or in Hin as [Hin|Hin].
        -- by apply A4 in Hin.
        -- by apply H4.
      * intros Hr. apply in_or_app. right. by apply H4.
Qed.

Lemma flushStep_counts (flushThrows : bool) :
  count isHostile (flushStep flushThrows) = 0%nat
  /\ count isFlushDNS (flushStep flushThrows) = 1%nat
  /\ count isRestart (flushStep flushThrows) = (if flushThrows then 1 else 0)%nat
  /\ forall op, ~ In (LogError (failedMessage op)) (flushStep flushThrows).
Proof.
  destruct flushThrows; repeat split; try reflexivity;
    intros [] Hin; vm_compute in Hin; intuition discriminate.
Qed.

(** The common shape of [setHosts] and [removeHosts]. *)
Lemma hosts_method_counts (op : HostOp) (throws : Throws) (hs : list string)
    (flushThrows : bool) (first ok : string) :
  (forall o, LogDebug first <> LogError (failedMessage o)) ->
  let t := let '(t, returned) := hostsLoop op throws hs 0 in
           LogDebug first :: t
           ++ (if returned then [] else LogDebug ok :: flushStep flushThrows) in
  (count isHostile t <= 10 * List.length hs)%nat
  /\ (count isRestart t <= 1)%nat
  /\ (In (LogError (failedMessage op)) t -> count isFlushDNS t = 0%nat)
  /\ (~ In (LogError (failedMessage op)) t -> count isFlushDNS t = 1%nat).
Proof.
  intros _. cbv zeta.
  pose proof (hostsLoop_counts op throws hs 0) as H.
  destruct (hostsLoop op throws hs 0) as [t r].
  destruct H as (H1 & H2 & H3 & H4).
  destruct (flushStep_counts flushThrows) as (F1 & F2 & F3 & F4).
  rewrite !count_cons, !count_app. simpl.
  destruct r.
  - change (count isHostile []) with 0%nat.
    change (count isRestart []) with 0%nat.
    change (count isFlushDNS []) with 0%nat.
    repeat split; try lia.
    intros Hn. exfalso. apply Hn. right. apply in_or_app. left. by apply H4.
  - rewrite !count_cons. simpl. rewrite F1, F2, F3.
    repeat split; try (destruct flushThrows; lia).
    intros [Hc|Hin]; [discriminate|].
    apply in_app_or in Hin as [Hin|[Hc|Hin]].
    + by apply H4 in Hin.
    + discriminate.
    + by apply F4 in Hin.
Qed.

(** X18.  [setHosts] and [removeHosts] do nothing at all when no host list
    is configured.  With a list, [hostile] is called at most ten times per
    host, at most one restart is asked for, and the DNS cache is flushed
    exactly once if no host was given up and not at all otherwise. *)
Theorem setHosts_removeHosts_bounds (throws : Throws) (hs : list string)
    (flushThrows : bool) :
  setHosts None throws flushThrows = []
  /\ removeHosts None throws flushThrows = []
  /\ (let t := setHosts (Some hs) throws flushThrows in
      (count isHostile t <= 10 * List.length hs)%nat
      /\ (count isRestart t <= 1)%nat
      /\ (In (LogError "Set hosts failed:") t -> count isFlushDNS t = 0%nat)
      /\ (~ In (LogError "Set hosts failed:") t -> count isFlushDNS t = 1%nat))
  /\ (let t := removeHosts (Some hs) throws flushThrows in
      (count isHostile t <= 10 * List.length hs)%nat
      /\ (count isRestart t <= 1)%nat
      /\ (In (LogError "Remove hosts failed:") t -> count isFlushDNS t = 0%nat)
      /\ (~ In (LogError "Remove hosts failed:") t -> count isFlushDNS t = 1%nat)).
Proof.
  split; [reflexivity|]. split; [reflexivity|]. split.
  - apply (hosts_method_counts HostSet throws hs flushThrows
             "Setting hosts..." "Set hosts success.").
    intros o. discriminate.
  - apply (hosts_method_counts HostRemove throws hs flushThrows
             "Removing hosts..." "Remove hosts success.").
    intros o. discriminate.
Qed.

Lemma attempts_first_try (op : HostOp) (throws : Throws) (host : string)
    (k : nat) :
  throws k = false ->
  attempts op throws host 10 1 k
  = ([Hostile op "127.0.0.1" host], (k + 1)%nat, false).
Proof.
  intros Hok. apply (attempts_until_success op throws host 0 10 1 k).
  - lia.
  - lia.
  - intros n Hn. lia.
  - by rewrite Nat.add_0_r.
Qed.

Lemma hostsLoop_no_throw (op : HostOp) (throws : Throws) (hs : list string) :
  forall k : nat,
    (forall n, (n < List.length hs)%nat -> throws (k + n)%nat = false) ->
    hostsLoop op throws hs k = (List.map (Hostile op "127.0.0.1") hs, false).
Proof.
  induction hs as [|h rest IH]; intros k Hok; [done|].
  rewrite hostsLoop_cons, attempts_first_try.
  - rewrite (IH (k + 1)%nat); [done|].
    intros n Hn. replace (k + 1 + n)%nat with (k + S n)%nat by lia.
    apply Hok. simpl. lia.
  - rewrite <- (Nat.add_0_r k). apply Hok. simpl. lia.
Qed.

Lemma hostsLoop_gives_up (op : HostOp) (throws : Throws)
    (done_ rest : list string) (h : string) :
  forall k : nat,
    (forall n, (n < List.length done_)%nat -> throws (k + n)%nat = false) ->
    (forall n, (n < 10)%nat -> throws (k + List.length done_ + n)%nat = true) ->
    hostsLoop op throws (done_ ++ h :: rest) k
    = (List.map (Hostile op "127.0.0.1") done_
       ++ replicate 10 (Hostile op "127.0.0.1" h)
       ++ [LogError (failedMessage op); Restart 15000], true).
Proof.
  induction done_ as [|d done_ IH]; intros k Hok Hthrow.
  - change ([] ++ h :: rest) with (h :: rest). rewrite hostsLoop_cons.
    rewrite (attempts_all_throw op throws h 10 1 k).
    + done.
    + lia.
    + lia.
    + intros n Hn. specialize (Hthrow n Hn). simpl in Hthrow.
      by rewrite Nat.add_0_r in Hthrow.
  - change ((d :: done_) ++ h :: rest) with (d :: (done_ ++ h :: rest)).
    rewrite hostsLoop_cons, attempts_first_try.
    + rewrite (IH (k + 1)%nat); [done| |].
      * intros n Hn. replace (k + 1 + n)%nat with (k + S n)%nat by lia.
        apply Hok. simpl. lia.
      * intros n Hn.
        replace (k + 1 + List.length done_ + n)%nat
          with (k + List.length (d :: done_) + n)%nat by (simpl; lia).
        by apply Hthrow.
    + rewrite <- (Nat.add_0_r k). apply Hok. simpl. lia.
Qed.

(** X19.  When no call of [hostile] throws, [setHosts] sets every host
    exactly once, in the order of the list, reports success and goes on to
    flush the DNS cache; [removeHosts] does the same with removals. *)
Theorem setHosts_removeHosts_no_throw (throws : Throws) (hs : list string)
    (flushThrows : bool) :
  (forall n, (n < List.length hs)%nat -> throws n = false) ->
  setHosts (Some hs) throws flushThrows
  = LogDebug "Setting hosts..."
    :: List.map (Hostile HostSet "127.0.0.1") hs
    ++ LogDebug "Set hosts success." :: flushStep flushThrows
  /\ removeHosts (Some hs) throws flushThrows
     = LogDebug "Removing hosts..."
       :: List.map (Hostile HostRemove "127.0.0.1") hs
       ++ LogDebug "Remove hosts success." :: flushStep flushThrows.
Proof.
  intros Hok. unfold setHosts, removeHosts.
  rewrite !(hostsLoop_no_throw _ throws hs 0 Hok). done.
Qed.

(** X20.  When the hosts before [h] are set at the first try and the ten
    calls for [h] all throw, [setHosts] logs the failure, asks for a
    restart in 15000 ms and returns: the hosts after [h] are not tried, no
    success is reported and the DNS cache is not flushed; likewise for
    [removeHosts]. *)
Theorem setHosts_removeHosts_give_up (throws : Throws)
    (done_ rest : list string) (h : string) (flushThrows : bool) :
  (forall n, (n < List.length done_)%nat -> throws n = false) ->
  (forall n, (n < 10)%nat -> throws (List.length done_ + n)%nat = true) ->
  setHosts (Some (done_ ++ h :: rest)) throws flushThrows
  = LogDebug "Setting hosts..."
    :: List.map (Hostile HostSet "127.0.0.1") done_
    ++ replicate 10 (Hostile HostSet "127.0.0.1" h)
    ++ [LogError "Set hosts failed:"; Restart 15000]
  /\ removeHosts (Some (done_ ++ h :: rest)) throws flushThrows
     = LogDebug "Removing hosts..."
       :: List.map (Hostile HostRemove "127.0.0.1") done_
       ++ replicate 10 (Hostile HostRemove "127.0.0.1" h)
       ++ [LogError "Remove hosts failed:"; Restart 15000].
Proof.
  intros Hok Hthrow. unfold setHosts, removeHosts.
  rewrite !(hostsLoop_gives_up _ throws done_ rest h 0 Hok Hthrow).
  rewrite !app_nil_r. done.
Qed.

Lemma listeningEvents_count (n : nat) :
  forall listening : nat,
    fst (listeningEvents n listening) = (listening + n)%nat
    /\ count isStarted (snd (listeningEvents n listening))
       = ((listening + n - 2) - (listening - 2))%nat.
Proof.
  induction n as [|n IH]; intros listening.
  - simpl. split; [lia|]. change (count isStarted []) with 0%nat. lia.
  - simpl. unfold onListening.
    destruct (IH (S listening)) as [I1 I2].
    destruct (S listening <? 3)%nat eqn:Hlt;
      destruct (listeningEvents n (S listening)) as [l2 t2]; simpl in *.
    + apply Nat.ltb_lt in Hlt. split; [lia|]. rewrite I2. lia.
    + apply Nat.ltb_ge in Hlt. split; [lia|].
      rewrite !count_cons. simpl. rewrite I2. lia.
Qed.

(** X21.  Counting from a fresh [start], the first two [listening] events
    log nothing and every later one logs "Started." once: after [n] events
    it has been logged [n - 2] times, so exactly once when each of the
    three servers reports once, and again for every further event. *)
Theorem onListening_started (n : nat) :
  fst (listeningEvents n 0) = n
  /\ count isStarted (snd (listeningEvents n 0)) = (n - 2)%nat
  /\ snd (listeningEvents 2 0) = []
  /\ snd (listeningEvents 3 0)
     = [LogInfo "Started."; Measure "Server start" "Start"].
Proof.
  destruct (listeningEvents_count n 0) as [H1 H2].
  split; [exact H1|]. split; [rewrite H2; simpl; lia|]. done.
Qed.

End ServerFacts.

(** ** The further properties on concrete scenes *)
Section ConcreteMore.
Import Examples Scenarios.

(** Players 5 and 9 are both eligible for [monsterContested]; 5 comes
    first. *)
Lemma updateAuthorityPeer_first_match_witness :
  authorityPeerId (after (updateAuthorityPeer monsterContested)) = Some 5
  /\ result (updateAuthorityPeer monsterContested) = true.
Proof.
  destruct (updateAuthorityPeer_first_match monsterContested
              [player6] [player9] player5) as (H1 & _ & H2).
  - reflexivity.
  - vm_compute. reflexivity.
  - reflexivity.
  - intros p [<-|[]]. vm_compute. reflexivity.
  - vm_compute. reflexivity.
  - exact (conj H1 H2).
Defined.

(** Peer 6 is flagged [noAuthority] and stays the authority. *)
Lemma updateAuthorityPeer_keeps_witness :
  noAuthority player6 = true
  /\ updateAuthorityPeer monsterOfIneligible = (false, monsterOfIneligible, []).
Proof.
  split; [reflexivity|].
  apply (updateAuthorityPeer_keeps monsterOfIneligible
           (mkEntityManager (sceneWith [player6; player8; player5]))
           (worldOf [player6; player8; player5]) player6);
    vm_compute; reflexivity.
Defined.

Lemma updateAuthorityPeer_frame_witness :
  authorityPeerId monsterContested = Some 7
  /\ authorityPeerId (after (updateAuthorityPeer monsterContested)) ≠ None.
Proof.
  split; [reflexivity|].
  destruct (updateAuthorityPeer_frame monsterContested) as (_ & _ & H).
  apply H. vm_compute. discriminate.
Defined.

Lemma updateAuthorityPeer_detached_witness :
  updateAuthorityPeer monsterDetached = (false, monsterDetached, []).
Proof.
  apply (updateAuthorityPeer_detached monsterDetached). reflexivity.
Defined.

Lemma updateAuthorityPeer_twice_witness :
  authorityPeerId (after (updateAuthorityPeer monsterFresh)) = Some 5
  /\ updateAuthorityPeer (after (updateAuthorityPeer monsterFresh))
     = (false, after (updateAuthorityPeer monsterFresh), []).
Proof.
  split; [vm_compute; reflexivity|].
  apply (updateAuthorityPeer_twice monsterFresh
           (mkEntityManager (sceneWith [player6; player8; player5]))
           (worldOf [player6; player8; player5])
           [player6; player8; player5]); try reflexivity.
  intros p [<-|[<-|[<-|[]]]]; vm_compute; reflexivity.
Defined.

Lemma kill_alive_effect_witness :
  lifeState (after (kill 42 (PLAYER_DIE_OTHER 3) monsterFresh)) = LIFE_DEAD
  /\ dieType (after (kill 42 (PLAYER_DIE_OTHER 3) monsterFresh))
     = PLAYER_DIE_OTHER 3
  /\ attackerId (after (kill 42 (PLAYER_DIE_OTHER 3) monsterFresh)) = Some 42
  /\ calls (kill 42 (PLAYER_DIE_OTHER 3) avatarDetached)
     = [CallEmit Death (after (kill 42 (PLAYER_DIE_OTHER 3) avatarDetached))].
Proof.
  destruct (kill_alive_effect monsterFresh 42 (PLAYER_DIE_OTHER 3) eq_refl)
    as (H1 & H2 & H3 & _).
  destruct (kill_alive_effect avatarDetached 42 (PLAYER_DIE_OTHER 3) eq_refl)
    as (_ & _ & _ & _ & H4 & _).
  exact (conj H1 (conj H2 (conj H3 (H4 eq_refl)))).
Defined.

(** [avatarDetached] has a maximum HP of 300: killed and revived without
    target it has the current HP 300 * 0.4, which is the double 120. *)
Lemma kill_then_revive_witness :
  let e' :=
    after (revive None (after (kill 42 (PLAYER_DIE_OTHER 3) avatarDetached))) in
  e' = set_fightProps
         (FightProp_set (fightProps avatarDetached) FIGHT_PROP_CUR_HP 120)
         avatarDetached
  /\ FightProp_get (fightProps e') FIGHT_PROP_CUR_HP = 120%float.
Proof.
  cbv zeta.
  destruct (kill_then_revive avatarDetached 42 (PLAYER_DIE_OTHER 3) None
              eq_refl eq_refl) as (H1 & H2 & _).
  exact (conj H1 H2).
Defined.

(** [kill] does nothing in a life state that is not Alive, [revive] acts
    in a life state that is not Dead. *)
Lemma kill_revive_postconditions_witness :
  lifeState monsterLimbo = LIFE_OTHER 3
  /\ kill 1 PLAYER_DIE_NONE monsterLimbo = (tt, monsterLimbo, [])
  /\ lifeState (after (revive None monsterLimbo)) = LIFE_ALIVE.
Proof.
  split; [reflexivity|].
  destruct (kill_revive_postconditions monsterLimbo 1 PLAYER_DIE_NONE None)
    as (_ & H2 & H3 & _).
  split; [|exact H2]. apply H3. vm_compute. discriminate.
Defined.

(** A maximum HP of one half: the revived entity has one half; a target
    that is NaN is stored as NaN. *)
Lemma revive_hp_bounds_witness :
  FightProp_get (fightProps monsterLimbo) FIGHT_PROP_MAX_HP = 0.5%float
  /\ FightProp_get (fightProps (after (revive (Some 7%float) monsterLimbo)))
       FIGHT_PROP_CUR_HP = 0.5%float
  /\ FightProp_get (fightProps (after (revive (Some nan) monsterLimbo)))
       FIGHT_PROP_CUR_HP = nan.
Proof.
  split; [vm_compute; reflexivity|].
  assert (Hn : lifeState monsterLimbo ≠ LIFE_ALIVE)
    by (vm_compute; discriminate).
  destruct (revive_hp_bounds monsterLimbo 7%float Hn) as (_ & _ & _ & H & _).
  destruct (revive_hp_bounds monsterLimbo nan Hn) as (H' & _).
  split; [apply H; vm_compute; reflexivity | apply H'; reflexivity].
Defined.

(** Persisted data without life state on a dead object, and persisted
    data of a dead entity on an alive object. *)
Lemma init_effect_witness :
  lifeState (after (init (mkEntityUserData LIFE_UNDEFINED ∅ ∅) monsterDead))
  = LIFE_ALIVE
  /\ lifeState (after (init (mkEntityUserData LIFE_DEAD ∅ ∅) monsterFresh))
     = LIFE_DEAD.
Proof.
  destruct (init_effect (mkEntityUserData LIFE_UNDEFINED ∅ ∅) monsterDead)
    as (_ & H1 & _).
  destruct (init_effect (mkEntityUserData LIFE_DEAD ∅ ∅) monsterFresh)
    as (_ & _ & H2).
  exact (conj (H1 eq_refl) (H2 eq_refl)).
Defined.

Lemma kill_export_init_witness :
  let restored :=
    after (init (exportUserData (after (kill 42 (PLAYER_DIE_OTHER 3) monsterFresh)))
             avatarDetached) in
  lifeState restored = LIFE_DEAD
  /\ dieType restored = PLAYER_DIE_NONE
  /\ attackerId restored = None.
Proof.
  cbv zeta.
  destruct (kill_export_init monsterFresh avatarDetached 42
              (PLAYER_DIE_OTHER 3) eq_refl) as (H1 & _ & H2 & H3).
  exact (conj H1 (conj H2 H3)).
Defined.

Lemma initNew_effect_witness :
  props (after (initNew None monsterDead)) = EntityProps_initNew 1
  /\ dieType (after (initNew None monsterDead)) = PLAYER_DIE_OTHER 1.
Proof.
  destruct (initNew_effect None monsterDead) as (_ & H1 & _ & H2 & _).
  exact (conj (H1 eq_refl) H2).
Defined.

Lemma exportSceneEntityInfo_fields_witness :
  sei_lifeState (exportSceneEntityInfo monsterFresh) = Some LIFE_ALIVE
  /\ propList (exportSceneEntityInfo monsterFresh) = [(PROP_LEVEL, 3)].
Proof.
  destruct (exportSceneEntityInfo_fields (var := var0) monsterFresh)
    as (_ & _ & _ & _ & _ & _ & _ & _ & H).
  destruct H as (H1 & _ & H2); [vm_compute; discriminate|].
  exact (conj H1 H2).
Defined.

Lemma exportSceneEntityInfo_variant_iff_witness :
  avatar (exportSceneEntityInfo otherEntity) = None
  /\ npc (exportSceneEntityInfo otherEntity) = None.
Proof.
  destruct (exportSceneEntityInfo_variant_iff (var := var0) otherEntity)
    as (H1 & _ & H3 & _).
  split.
  - destruct (avatar (exportSceneEntityInfo otherEntity)) eqn:E; [|reflexivity].
    assert (Hbad : entityType otherEntity = PROT_ENTITY_AVATAR)
      by (apply H1; discriminate).
    vm_compute in Hbad. discriminate Hbad.
  - destruct (npc (exportSceneEntityInfo otherEntity)) eqn:E; [|reflexivity].
    assert (Hbad : entityType otherEntity = PROT_ENTITY_NPC)
      by (apply H3; discriminate).
    vm_compute in Hbad. discriminate Hbad.
Defined.

End ConcreteMore.

Module ServerExamples.
Import Stdlib.Strings.String Server ServerFacts.
Local Open Scope string_scope.
Local Open Scope list_scope.

Lemma attempts_retry_witness :
  attempts HostSet throwsThrice "a.example" 10 1 0
  = (replicate 4 (Hostile HostSet "127.0.0.1" "a.example"), 4%nat, false)
  /\ attempts HostRemove throwsAfterFirst "b.example" 10 1 1
     = (replicate 10 (Hostile HostRemove "127.0.0.1" "b.example")
        ++ [LogError "Remove hosts failed:"; Restart 15000], 11%nat, true).
Proof.
  destruct (attempts_retry HostSet throwsThrice "a.example" 0) as (H1 & _).
  destruct (attempts_retry HostRemove throwsAfterFirst "b.example" 1)
    as (_ & H2).
  split.
  - apply (H1 3%nat); [lia | | reflexivity].
    intros n Hn. unfold throwsThrice. apply Nat.ltb_lt. lia.
  - apply H2. intros n Hn. unfold throwsAfterFirst. apply Nat.leb_le. lia.
Defined.

Lemma setHosts_removeHosts_bounds_witness :
  count isFlushDNS
    (setHosts (Some ["a.example"; "b.example"]) throwsAfterFirst false) = 0%nat
  /\ count isFlushDNS
       (setHosts (Some ["a.example"; "b.example"]) throwsThrice false) = 1%nat.
Proof.
  destruct (setHosts_removeHosts_bounds throwsAfterFirst
              ["a.example"; "b.example"] false) as (_ & _ & (_ & _ & H1 & _) & _).
  destruct (setHosts_removeHosts_bounds throwsThrice
              ["a.example"; "b.example"] false) as (_ & _ & (_ & _ & _ & H2) & _).
  split.
  - apply H1. vm_compute. tauto.
  - apply H2. vm_compute. intuition discriminate.
Defined.

Lemma setHosts_removeHosts_no_throw_witness :
  setHosts (Some ["a.example"; "b.example"]) (fun _ => false) true
  = [LogDebug "Setting hosts..."; Hostile HostSet "127.0.0.1" "a.example";
     Hostile HostSet "127.0.0.1" "b.example"; LogDebug "Set hosts success.";
     LogDebug "Flushing dns..."; FlushDNS; LogError "Flush dns failed:";
     Restart 15000].
Proof.
  apply (setHosts_removeHosts_no_throw (fun _ => false)
           ["a.example"; "b.example"] true).
  intros n Hn. reflexivity.
Defined.

Lemma setHosts_removeHosts_give_up_witness :
  setHosts (Some ["a.example"; "b.example"; "c.example"]) throwsAfterFirst false
  = LogDebug "Setting hosts..."
    :: Hostile HostSet "127.0.0.1" "a.example"
    :: replicate 10 (Hostile HostSet "127.0.0.1" "b.example")
    ++ [LogError "Set hosts failed:"; Restart 15000].
Proof.
  apply (setHosts_removeHosts_give_up throwsAfterFirst
           ["a.example"] ["c.example"] "b.example" false).
  - intros n Hn. simpl in Hn. assert (n = 0%nat) as -> by lia. reflexivity.
  - intros n Hn. unfold throwsAfterFirst. apply Nat.leb_le. simpl. lia.
Defined.

End ServerExamples.
